(** * Plumbing pipe sizer: fixture-unit interpolation and the solver stack

    A shallow embedding of [gpm_and_fixture_units.py] and
    [fluid_dynamic_equations.py].

    Numbers.  Python [int]s are [Z].  A flow handed to
    [interpolate_fixture_units] is an [int] or a [float]; both denote
    rationals, so it is a [Q], and the interpolation arithmetic is carried
    out exactly (binary64 rounding is idealised away).  The fluid equations
    use square roots and logarithms, so their [float]s are idealised as
    [R]. *)

From Stdlib Require Import ZArith QArith Qround List String Ascii Bool Lia.
From Stdlib Require Import Reals Lra.
From Stdlib Require Lqa Qreals.
Import ListNotations.

(** The Python exceptions the two modules can raise. *)
Inductive exn : Type := IndexError | ZeroDivisionError.

(* ===================================================================== *)
(** * gpm_and_fixture_units.py *)
(* ===================================================================== *)

Module FixtureUnits.

Local Open Scope Z_scope.

(** One tuple of the table: (GPM, tank fixture units, valve fixture units),
    the last being [None] where flush valves are not rated. *)
Definition row : Type := Z * Z * option Z.

Definition row_gpm (r : row) : Z := fst (fst r).
Definition row_tank (r : row) : Z := snd (fst r).
Definition row_valve (r : row) : option Z := snd r.

Definition fixture_data : list row :=
  [ (1, 0, None); (2, 1, None); (3, 3, None); (4, 4, None); (5, 6, None); (6, 7, None); (7, 8, None); (8, 10, None);
    (9, 12, None); (10, 13, None); (11, 15, None); (12, 16, None); (13, 18, None); (14, 20, None); (15, 21, None);
    (16, 23, None); (17, 24, None); (18, 26, None); (19, 28, None); (20, 30, None); (21, 32, None); (22, 34, Some 5);
    (23, 36, Some 6); (24, 39, Some 7); (25, 42, Some 8); (26, 44, Some 9); (27, 46, Some 10); (28, 49, Some 11); (29, 51, Some 12); (30, 54, Some 13);
    (31, 56, Some 14); (32, 58, Some 15); (33, 60, Some 16); (34, 63, Some 18); (35, 66, Some 20); (36, 69, Some 21); (37, 74, Some 23); (38, 78, Some 25);
    (39, 83, Some 26); (40, 86, Some 28); (41, 90, Some 30); (42, 95, Some 31); (43, 99, Some 33); (44, 103, Some 35); (45, 107, Some 37); (46, 111, Some 39);
    (47, 115, Some 42); (48, 119, Some 44); (49, 123, Some 46); (50, 127, Some 48); (51, 130, Some 50); (52, 135, Some 52); (53, 141, Some 54);
    (54, 146, Some 57); (55, 151, Some 60); (56, 155, Some 63); (57, 160, Some 66); (58, 165, Some 69); (59, 170, Some 73); (60, 175, Some 76);
    (62, 185, Some 82); (64, 195, Some 88); (66, 205, Some 95); (68, 215, Some 102); (70, 225, Some 108); (72, 236, Some 116); (74, 245, Some 124);
    (76, 254, Some 132); (78, 264, Some 140); (80, 275, Some 148); (82, 284, Some 158); (84, 294, Some 168); (86, 305, Some 176); (88, 315, Some 186);
    (90, 326, Some 195); (92, 337, Some 205); (94, 348, Some 214); (96, 359, Some 223); (98, 370, Some 234); (100, 380, Some 245); (105, 405, Some 270);
    (110, 431, Some 295); (115, 455, Some 329); (120, 479, Some 365); (125, 506, Some 396); (130, 533, Some 430); (135, 559, Some 460);
    (140, 585, Some 490); (145, 611, Some 521); (150, 638, Some 559); (155, 665, Some 596); (160, 692, Some 631); (165, 719, Some 666);
    (170, 748, Some 700); (175, 778, Some 739); (180, 809, Some 775); (185, 840, Some 811); (190, 874, Some 850); (200, 945, Some 931);
    (210, 1018, Some 1009); (220, 1091, Some 1091); (230, 1173, Some 1173); (240, 1254, Some 1254); (250, 1335, Some 1335); (260, 1418, Some 1418);
    (270, 1500, Some 1500); (280, 2583, Some 2583); (290, 1668, Some 1668); (300, 1755, Some 1755); (310, 1845, Some 1845); (320, 1926, Some 1926);
    (330, 2018, Some 2018); (340, 2110, Some 2110); (350, 2204, Some 2204); (360, 2298, Some 2298); (370, 2388, Some 2388); (380, 2480, Some 2480);
    (390, 2575, Some 2575); (400, 2670, Some 2670); (410, 2765, Some 2765); (420, 2862, Some 2862); (430, 2960, Some 2960); (440, 3060, Some 3060);
    (450, 3150, Some 3150); (500, 3620, Some 3620) ].

(** ** Strings and [str.lower]

    [flush_type] is a string of 8-bit code points.  On these, [str.lower]
    acts character by character: the ASCII capitals and the Latin-1
    capitals (U+00C0 to U+00DE, the multiplication sign U+00D7 apart) move
    up by 32 and every other code point stays. *)
Definition lower_ascii (c : ascii) : ascii :=
  let n := nat_of_ascii c in
  if ((65 <=? n) && (n <=? 90))%nat then ascii_of_nat (n + 32)
  else if ((192 <=? n) && (n <=? 222) && negb (n =? 215))%nat
       then ascii_of_nat (n + 32)
  else c.

Fixpoint lower (s : string) : string :=
  match s with
  | EmptyString => EmptyString
  | String c rest => String (lower_ascii c) (lower rest)
  end.

(** ** What a call hands back

    The Python function returns an [int] on success and one of four
    message strings otherwise; a table with fewer than one row or with a
    repeated flow would make it raise. *)
Inductive result : Type :=
| Units (n : Z)
| Text (s : string)
| Raises (e : exn).

Definition out_of_range_msg : string := "Out of Range.".
Definition next_size_msg : string := "Out of range. Use next valid pipe size.".
Definition invalid_flush_msg : string := "Error: Invalid flush type.".
Definition unable_msg : string := "Error: Unable to calculate fixture units.".

(** [floor(v1 + (v2 - v1) * (gpm_input - gpm1) / (gpm2 - gpm1))]; the true
    division raises on a zero divisor. *)
Definition floor_interp (v1 v2 : Z) (gpm_input : Q) (gpm1 gpm2 : Z) : result :=
  if gpm2 - gpm1 =? 0 then Raises ZeroDivisionError
  else Units (Qfloor (inject_Z v1
                      + (inject_Z (v2 - v1) * (gpm_input - inject_Z gpm1))
                        / inject_Z (gpm2 - gpm1))%Q).

(** The chained comparison [gpm1 <= gpm_input <= gpm2]. *)
Definition brackets (gpm_input : Q) (r1 r2 : row) : bool :=
  Qle_bool (inject_Z (row_gpm r1)) gpm_input
  && Qle_bool gpm_input (inject_Z (row_gpm r2)).

(** The body executed for the pair on which the comparison holds. *)
Definition on_bracket (r1 r2 : row) (gpm_input : Q) (flush_type : string) : result :=
  let '(gpm1, tank1, valve1) := r1 in
  let '(gpm2, tank2, valve2) := r2 in
  if String.eqb (lower flush_type) "tank" then
    floor_interp tank1 tank2 gpm_input gpm1 gpm2
  else if String.eqb (lower flush_type) "valve" then
    match valve1, valve2 with
    | Some a, Some b => floor_interp a b gpm_input gpm1 gpm2
    | Some a, None => Units a
    | None, _ => Text next_size_msg
    end
  else Text invalid_flush_msg.

(** The [for i in range(len(fixture_data) - 1)] loop, on the rows from
    index [i] on: the pair (row i, row i+1) is tried, then the loop moves
    one row down; falling off the end yields the last message. *)
Fixpoint scan (rows : list row) (gpm_input : Q) (flush_type : string) : result :=
  match rows with
  | r1 :: ((r2 :: _) as rest) =>
      if brackets gpm_input r1 r2 then on_bracket r1 r2 gpm_input flush_type
      else scan rest gpm_input flush_type
  | _ => Text unable_msg
  end.

(** The function over a table; [table[0]] and [table[-1]] raise on an
    empty one. *)
Definition interpolate_on (table : list row) (gpm_input : Q) (flush_type : string) : result :=
  match table with
  | [] => Raises IndexError
  | first :: _ =>
      if Qlt_le_dec gpm_input (inject_Z (row_gpm first)) then Text out_of_range_msg
      else if Qlt_le_dec (inject_Z (row_gpm (last table first))) gpm_input
           then Text out_of_range_msg
      else scan table gpm_input flush_type
  end.

Definition interpolate_fixture_units (gpm_input : Q) (flush_type : string) : result :=
  interpolate_on fixture_data gpm_input flush_type.

(** ** Specification vocabulary *)

(** Rows [i] and [i+1] of a table. *)
Definition adjacent (rows : list row) (i : nat) (r1 r2 : row) : Prop :=
  nth_error rows i = Some r1 /\ nth_error rows (S i) = Some r2.

(** The pair the loop stops at: the first consecutive pair, in table
    order, on which the chained comparison holds. *)
Definition selected (rows : list row) (gpm_input : Q) (i : nat) (r1 r2 : row) : Prop :=
  adjacent rows i r1 r2
  /\ brackets gpm_input r1 r2 = true
  /\ forall j q1 q2, (j < i)%nat -> adjacent rows j q1 q2 ->
                     brackets gpm_input q1 q2 = false.

(** The search of [scan] on its own, counting iterations from [i]. *)
Fixpoint first_bracket (i : nat) (rows : list row) (gpm_input : Q)
  : option (nat * (row * row)) :=
  match rows with
  | r1 :: ((r2 :: _) as rest) =>
      if brackets gpm_input r1 r2 then Some (i, (r1, r2))
      else first_bracket (S i) rest gpm_input
  | _ => None
  end.

(** A test on every consecutive pair, and the pairs that fail it. *)
Fixpoint violations (P : row -> row -> bool) (rows : list row) : list (row * row) :=
  match rows with
  | r1 :: ((r2 :: _) as rest) =>
      if P r1 r2 then violations P rest else (r1, r2) :: violations P rest
  | _ => []
  end.

Definition flow_lt (r1 r2 : row) : bool := row_gpm r1 <? row_gpm r2.
Definition tank_le (r1 r2 : row) : bool := row_tank r1 <=? row_tank r2.
Definition valve_le (r1 r2 : row) : bool :=
  match row_valve r1, row_valve r2 with
  | Some a, Some b => a <=? b
  | _, _ => true
  end.

(** The table invariant of the data model, as a decidable check. *)
Definition flows_strictly_increasing (rows : list row) : Prop :=
  violations flow_lt rows = [].
Definition tank_non_decreasing (rows : list row) : Prop :=
  violations tank_le rows = [].
Definition valve_non_decreasing (rows : list row) : Prop :=
  violations valve_le rows = [].

End FixtureUnits.

(* ===================================================================== *)
(** * fluid_dynamic_equations.py *)
(* ===================================================================== *)

Module FluidDynamics.

Local Open Scope R_scope.

Definition GRAVITY : R := 32.174.

(** ** Outcomes of float arithmetic

    A true division by zero between Python floats raises
    [ZeroDivisionError] (the caller's [except ZeroDivisionError] relies on
    it).  When an operand is a numpy array or numpy scalar the same
    division, and a square root or logarithm outside its domain, yield
    [inf] or [nan] with a warning instead; those values are not reals and
    the model stops with [NonFinite] there. *)
Inductive py (A : Type) : Type :=
| Ret (a : A)
| NonFinite
| Raise (e : exn).

Arguments Ret {A} a.
Arguments NonFinite {A}.
Arguments Raise {A} e.

Definition bind {A B : Type} (c : py A) (k : A -> py B) : py B :=
  match c with
  | Ret a => k a
  | NonFinite => NonFinite
  | Raise e => Raise e
  end.

Notation "x <- c ;; k" := (bind c (fun x => k))
  (at level 61, c at next level, right associativity).

(** The dynamic types of the operands decide which division runs:
    [PyFloat] when both are Python floats, [NdArray] when one of them is a
    numpy array or scalar. *)
Inductive operand : Type := PyFloat | NdArray.

Definition truediv (k : operand) (x y : R) : py R :=
  if Req_EM_T y 0 then
    match k with
    | PyFloat => Raise ZeroDivisionError
    | NdArray => NonFinite
    end
  else Ret (x / y).

(** [np.sqrt] and [np.log10]. *)
Definition np_sqrt (x : R) : py R :=
  if Rlt_dec x 0 then NonFinite else Ret (sqrt x).

Definition np_log10 (x : R) : py R :=
  if Rlt_dec 0 x then Ret (ln x / ln 10) else NonFinite.

(** [k] is the dynamic type of [velocity]. *)
Definition reynolds_num (k : operand) (velocity diam_inch kin_visc : R) : py R :=
  truediv k (velocity * (diam_inch / 12.0)) kin_visc.

(** The nested function of [friction_factor_solver], with its free
    variables as parameters.  [fsolve] calls it on an array.  Of its
    operations only [epsilon / (3.7 * D_ft)], a division of two Python
    floats, can raise, and it does so whatever [f] is; it is sequenced
    first because a non-finite intermediate value does not stop the
    evaluation of the expression while an exception does. *)
Definition colebrook_white (epsilon D_ft re : R) (f : R) : py R :=
  rel <- truediv PyFloat epsilon (3.7 * D_ft) ;;
  s <- np_sqrt f ;;
  a <- truediv NdArray 1.0 s ;;
  b <- truediv NdArray 2.51 (re * s) ;;
  l <- np_log10 (rel + b) ;;
  Ret (a + 2.0 * l).

Section Solver.

(** scipy's root-finder is not part of the repository.  [hybr func x0]
    stands for the MINPACK driver behind [fsolve]: it yields the iterate it
    ends on and the status flag [ier], which is 1 when the tolerance was
    reached and another value when the evaluation budget ran out or the
    iteration stopped making progress. *)
Variable hybr : (R -> py R) -> R -> R * Z.

(** [fsolve(func, x0)[0]].  The callback is evaluated at [x0] before the
    iteration starts, so an exception it raises there leaves [fsolve].
    Called without [full_output], [fsolve] hands back the iterate alone; a
    status other than 1 only issues a warning. *)
Definition fsolve (func : R -> py R) (x0 : R) : py R :=
  match func x0 with
  | Raise e => Raise e
  | _ => Ret (fst (hybr func x0))
  end.

(** [k] is the dynamic type of [re]. *)
Definition friction_factor_solver (k : operand)
    (re epsilon diam_inch initial_guess : R) : py R :=
  let D_ft := diam_inch / 12.0 in
  if Rlt_dec re 2000 then truediv k 64 re
  else fsolve (colebrook_white epsilon D_ft re) initial_guess.

(** [k] is the dynamic type of the numerator [f * 100.0 * velocity ** 2];
    the divisor is a Python float. *)
Definition darcy_weisbach_pressure_drop (k : operand) (f velocity diam_inch : R) : py R :=
  let D_ft := diam_inch / 12.0 in
  truediv k (f * 100.0 * velocity ^ 2) (D_ft * 2.0 * GRAVITY).

(** The nested function of [solve_velocity_given_pressure_drop]; [fsolve]
    calls it on an array, so every operation in it is numpy's. *)
Definition friction_rate_residual
    (friction_rate_target diam_inch epsilon kin_visc : R) (velocity : R) : py R :=
  re <- reynolds_num NdArray velocity diam_inch kin_visc ;;
  f <- friction_factor_solver NdArray re epsilon diam_inch 0.02 ;;
  h_f <- darcy_weisbach_pressure_drop NdArray f velocity diam_inch ;;
  Ret (h_f - friction_rate_target).

Definition solve_velocity_given_pressure_drop
    (friction_rate_target diam_inch epsilon kin_visc velocity_guess : R) : py R :=
  fsolve (friction_rate_residual friction_rate_target diam_inch epsilon kin_visc)
         velocity_guess.

End Solver.

(** A root-finder with no iterations to spend: it evaluates the callback
    at the starting point and stays there.  The status is 1 when the
    starting point happens to be a root, 2 (evaluation budget reached)
    when the residual there is a non-zero number, and 5 (no progress) when
    it is not a number. *)
Definition no_budget_hybr (func : R -> py R) (x0 : R) : R * Z :=
  match func x0 with
  | Ret y => if Req_EM_T y 0 then (x0, 1%Z) else (x0, 2%Z)
  | _ => (x0, 5%Z)
  end.

(** ** Specification vocabulary *)

(** The idealised contract of a root-finder: status 1 is only reported at
    a point where the callback evaluates to zero. *)
Definition exact_on_convergence (hybr : (R -> py R) -> R -> R * Z) : Prop :=
  forall func x0, snd (hybr func x0) = 1%Z -> func (fst (hybr func x0)) = Ret 0.

(** [s] is the square root of a root of the Colebrook-White equation at
    Reynolds number [re] and relative-roughness term [a]. *)
Definition colebrook_root (a re s : R) : Prop :=
  0 < s
  /\ 0 < a + 2.51 / (re * s)
  /\ 1.0 / s + 2.0 * (ln (a + 2.51 / (re * s)) / ln 10) = 0.

(** With D = diam_inch / 12 and Re = v D / nu, the head loss
    f * 100 * v^2 / (D * 2 * g) is this factor times f * Re^2. *)
Definition head_loss_scale (diam_inch kin_visc : R) : R :=
  100.0 / (diam_inch / 12.0 * 2.0 * GRAVITY)
  * (kin_visc / (diam_inch / 12.0)) * (kin_visc / (diam_inch / 12.0)).

(** The solve for [target] reaches it at velocity [v]: the call returns
    [v], the outer root-find reports convergence, and so does the
    friction-factor root-find that the residual runs at [v] (it runs one
    when the Reynolds number there is at least 2000). *)
Definition reached (hybr : (R -> py R) -> R -> R * Z)
    (target diam_inch epsilon kin_visc velocity_guess v : R) : Prop :=
  solve_velocity_given_pressure_drop hybr target diam_inch epsilon kin_visc
    velocity_guess = Ret v
  /\ snd (hybr (friction_rate_residual hybr target diam_inch epsilon kin_visc)
               velocity_guess) = 1%Z
  /\ (forall re, reynolds_num NdArray v diam_inch kin_visc = Ret re ->
                 ~ re < 2000 ->
                 snd (hybr (colebrook_white epsilon (diam_inch / 12.0) re) 0.02) = 1%Z).

(** An outcome tells the caller about a failure when it is an exception
    rather than a returned float. *)
Definition reports_failure (r : py R) : Prop :=
  match r with
  | Raise _ => True
  | _ => False
  end.

End FluidDynamics.

(* ===================================================================== *)
(** * pipe_flow_calcs.py *)
(* ===================================================================== *)

Module PipeFlowCalcs.

Import FixtureUnits FluidDynamics.
Local Open Scope R_scope.

Definition COPPER_EPSILON : R := 0.000005.
Definition WATER_KIN_VISC : R := 0.000012075.

(** The dict of nominal sizes and inner diameters, in insertion order. *)
Definition copper_pipe_sizes : list (R * R) :=
  [ (0.5, 0.545); (0.75, 0.785); (1, 1.025); (1.25, 1.265); (1.5, 1.505);
    (2, 1.985); (2.5, 2.465); (3, 2.945); (4, 3.905) ].

(** ** [interpolate_fixture_units] on a computed flow

    [calculate] hands [interpolate_fixture_units] a flow that comes out of
    the solver stack, a real in this model.  The function is the one of
    [FixtureUnits], read with the comparisons and the floor of [R]; on a
    rational flow the two agree. *)
Definition floor_interp_real (v1 v2 : Z) (gpm_input : R) (gpm1 gpm2 : Z) : result :=
  if (gpm2 - gpm1 =? 0)%Z then Raises ZeroDivisionError
  else Units (Zfloor (IZR v1
                      + (IZR (v2 - v1) * (gpm_input - IZR gpm1))
                        / IZR (gpm2 - gpm1))).

Definition brackets_real (gpm_input : R) (r1 r2 : row) : bool :=
  (if Rle_dec (IZR (row_gpm r1)) gpm_input then true else false)
  && (if Rle_dec gpm_input (IZR (row_gpm r2)) then true else false).

Definition on_bracket_real (r1 r2 : row) (gpm_input : R) (flush_type : string) : result :=
  let '(gpm1, tank1, valve1) := r1 in
  let '(gpm2, tank2, valve2) := r2 in
  if String.eqb (lower flush_type) "tank" then
    floor_interp_real tank1 tank2 gpm_input gpm1 gpm2
  else if String.eqb (lower flush_type) "valve" then
    match valve1, valve2 with
    | Some a, Some b => floor_interp_real a b gpm_input gpm1 gpm2
    | Some a, None => Units a
    | None, _ => Text next_size_msg
    end
  else Text invalid_flush_msg.

Fixpoint scan_real (rows : list row) (gpm_input : R) (flush_type : string) : result :=
  match rows with
  | r1 :: ((r2 :: _) as rest) =>
      if brackets_real gpm_input r1 r2 then on_bracket_real r1 r2 gpm_input flush_type
      else scan_real rest gpm_input flush_type
  | _ => Text unable_msg
  end.

Definition interpolate_on_real (table : list row) (gpm_input : R) (flush_type : string) : result :=
  match table with
  | [] => Raises IndexError
  | first :: _ =>
      if Rlt_dec gpm_input (IZR (row_gpm first)) then Text out_of_range_msg
      else if Rlt_dec (IZR (row_gpm (last table first))) gpm_input
           then Text out_of_range_msg
      else scan_real table gpm_input flush_type
  end.

Definition interpolate_fixture_units_real (gpm_input : R) (flush_type : string) : result :=
  interpolate_on_real fixture_data gpm_input flush_type.

(** ** The window

    What [calculate] reads: the text of the five entry fields and the
    selection of the combobox. *)
Record entries : Type := {
  cw_pressure_entry : string;
  hw_pressure_entry : string;
  length_entry : string;
  cw_velocity_entry : string;
  hw_velocity_entry : string;
  fixture_type_combobox : string
}.

(** A row of an output table: the eight values of a computed row (the
    numbers before they are formatted; the sixth column also shows the
    pressure drop divided by 2.31), or the dashes of the fallback. *)
Inductive table_row : Type :=
| Values (pipe_size velocity gpm : R) (fixture_units : result)
         (fixture_unit_type : string) (pressure_drop fric_factor re : R)
| Dashes (pipe_size : R).

(** What [calculate] writes: the numbers shown by the four friction-rate
    labels ([None] while a label still has its initial text) and the rows
    of the two tables. *)
Record display : Type := {
  cw_friction_rate_label : option R;
  cw_friction_rate_psi_label : option R;
  hw_friction_rate_label : option R;
  hw_friction_rate_psi_label : option R;
  table_cw : list table_row;
  table_hw : list table_row
}.

(** Code that updates the window and may raise: the window state is kept
    when an exception leaves. *)
Definition gui (A : Type) : Type := display -> display * py A.

Definition gui_ret {A : Type} (a : A) : gui A := fun st => (st, Ret a).

Definition gui_bind {A B : Type} (c : gui A) (k : A -> gui B) : gui B :=
  fun st =>
    match c st with
    | (st', Ret a) => k a st'
    | (st', NonFinite) => (st', NonFinite)
    | (st', Raise e) => (st', Raise e)
    end.

Definition lift {A : Type} (c : py A) : gui A := fun st => (st, c).

Notation "x <~ c ;; k" := (gui_bind c (fun x => k))
  (at level 61, c at next level, right associativity).

(** The two loops deleting the children of both tables. *)
Definition clear_tables : gui unit :=
  fun st =>
    ({| cw_friction_rate_label := cw_friction_rate_label st;
        cw_friction_rate_psi_label := cw_friction_rate_psi_label st;
        hw_friction_rate_label := hw_friction_rate_label st;
        hw_friction_rate_psi_label := hw_friction_rate_psi_label st;
        table_cw := [];
        table_hw := [] |}, Ret tt).

(** The four [label.config] calls. *)
Definition set_labels (cw_friction_rate hw_friction_rate : R) : gui unit :=
  fun st =>
    ({| cw_friction_rate_label := Some cw_friction_rate;
        cw_friction_rate_psi_label := Some (cw_friction_rate / 2.31);
        hw_friction_rate_label := Some hw_friction_rate;
        hw_friction_rate_psi_label := Some (hw_friction_rate / 2.31);
        table_cw := table_cw st;
        table_hw := table_hw st |}, Ret tt).

(** [table_cw.insert('', 'end', ...)] followed by [table_hw.insert]. *)
Definition insert_rows (cw_row hw_row : table_row) : gui unit :=
  fun st =>
    ({| cw_friction_rate_label := cw_friction_rate_label st;
        cw_friction_rate_psi_label := cw_friction_rate_psi_label st;
        hw_friction_rate_label := hw_friction_rate_label st;
        hw_friction_rate_psi_label := hw_friction_rate_psi_label st;
        table_cw := table_cw st ++ [cw_row];
        table_hw := table_hw st ++ [hw_row] |}, Ret tt).

(** A [for] loop over the items of [copper_pipe_sizes]. *)
Fixpoint for_each (sizes : list (R * R)) (body : R -> R -> gui unit) : gui unit :=
  match sizes with
  | [] => gui_ret tt
  | (pipe_size, pipe_inner_diam) :: rest =>
      _ <~ body pipe_size pipe_inner_diam ;; for_each rest body
  end.

(** The numbers computed for one pipe size and one of the two systems. *)
Record flow : Type := {
  flow_velocity : R;
  flow_re : R;
  flow_fric_factor : R;
  flow_pressure_drop : R;
  flow_gpm : R;
  flow_fixture_units : result
}.

(** The value of a call of [interpolate_fixture_units], or its exception. *)
Definition of_result (r : result) : py result :=
  match r with
  | Raises e => Raise e
  | _ => Ret r
  end.

(** [friction_factor_solver] returns a Python float from its laminar
    branch and a numpy scalar from [fsolve]. *)
Definition friction_kind (re : R) : operand :=
  if Rlt_dec re 2000 then PyFloat else NdArray.

Definition is_zero (x : R) : bool := if Req_EM_T x 0 then true else false.

Section Window.

Variable hybr : (R -> py R) -> R -> R * Z.

(** Python's [float] on the text of an entry: [None] stands for
    [ValueError].  (Texts such as "nan" or "inf" denote no real and are
    outside the model.) *)
Variable float : string -> option R.

Definition get_float (entry : string) : R :=
  match float entry with
  | Some x => x
  | None => 0.0
  end.

(** The "CW calculations" block of the loop body; the "HW calculations"
    block is the same code on the hot-water variables. *)
Definition water_calculations (friction_rate max_velocity : R)
    (fixture_type : string) (pipe_inner_diam : R) : py flow :=
  solved <- solve_velocity_given_pressure_drop hybr friction_rate pipe_inner_diam
              COPPER_EPSILON WATER_KIN_VISC 5.0 ;;
  let velocity := Rmin solved max_velocity in
  re <- reynolds_num PyFloat velocity pipe_inner_diam WATER_KIN_VISC ;;
  fric_factor <- friction_factor_solver hybr PyFloat re COPPER_EPSILON
                   pipe_inner_diam 0.02 ;;
  pressure_drop <- darcy_weisbach_pressure_drop (friction_kind re) fric_factor
                     velocity pipe_inner_diam ;;
  let gpm := velocity * pipe_inner_diam ^ 2 / 0.4084 in
  fixture_units <- of_result (interpolate_fixture_units_real gpm fixture_type) ;;
  Ret {| flow_velocity := velocity;
         flow_re := re;
         flow_fric_factor := fric_factor;
         flow_pressure_drop := pressure_drop;
         flow_gpm := gpm;
         flow_fixture_units := fixture_units |}.

Definition values_row (pipe_size : R) (fixture_type : string) (f : flow) : table_row :=
  Values pipe_size (flow_velocity f) (flow_gpm f) (flow_fixture_units f)
         fixture_type (flow_pressure_drop f) (flow_fric_factor f) (flow_re f).

(** The body of the [try]. *)
Definition try_block (e : entries) : gui unit :=
  let cw_pressure_psi := get_float (cw_pressure_entry e) in
  let hw_pressure_psi := get_float (hw_pressure_entry e) in
  let developed_length := get_float (length_entry e) in
  let cw_max_velocity := get_float (cw_velocity_entry e) in
  let hw_max_velocity := get_float (hw_velocity_entry e) in
  let fixture_type := fixture_type_combobox e in
  let cw_fixture_type :=
    if String.eqb fixture_type "Flush Valve Tanks" then "Tank"%string
    else "Valve"%string in
  let hw_fixture_type := "Tank"%string in
  if is_zero cw_pressure_psi || is_zero hw_pressure_psi || is_zero developed_length
     || is_zero cw_max_velocity || is_zero hw_max_velocity
  then lift (Raise ZeroDivisionError)
  else
    cw_friction_rate <~ lift (q <- truediv PyFloat cw_pressure_psi developed_length ;;
                              Ret (q * 2.31 * 100)) ;;
    hw_friction_rate <~ lift (q <- truediv PyFloat hw_pressure_psi developed_length ;;
                              Ret (q * 2.31 * 100)) ;;
    _ <~ set_labels cw_friction_rate hw_friction_rate ;;
    _ <~ clear_tables ;;
    for_each copper_pipe_sizes (fun pipe_size pipe_inner_diam =>
      cw <~ lift (water_calculations cw_friction_rate cw_max_velocity
                    cw_fixture_type pipe_inner_diam) ;;
      hw <~ lift (water_calculations hw_friction_rate hw_max_velocity
                    hw_fixture_type pipe_inner_diam) ;;
      insert_rows (values_row pipe_size cw_fixture_type cw)
                  (values_row pipe_size hw_fixture_type hw)).

(** The [except ZeroDivisionError] handler. *)
Definition show_dashes : gui unit :=
  _ <~ clear_tables ;;
  for_each copper_pipe_sizes (fun pipe_size _ =>
    insert_rows (Dashes pipe_size) (Dashes pipe_size)).

Definition calculate (e : entries) : gui unit :=
  fun st =>
    match try_block e st with
    | (st', Raise ZeroDivisionError) => show_dashes st'
    | outcome => outcome
    end.

End Window.

(** ** Specification vocabulary *)

(** The dash rows of the fallback, one per pipe size. *)
Definition dash_rows : list table_row :=
  map (fun p : R * R => Dashes (fst p)) copper_pipe_sizes.

(** The fixture type [calculate] uses for the cold-water table. *)
Definition cw_fixture_type_of (fixture_type : string) : string :=
  if String.eqb fixture_type "Flush Valve Tanks" then "Tank"%string
  else "Valve"%string.

(** The friction rate in ft of water per 100 ft from a pressure in psi. *)
Definition friction_rate_of (pressure_psi developed_length : R) : R :=
  pressure_psi / developed_length * 2.31 * 100.

(** The velocity [calculate] goes on with for one pipe: what the solve
    returns, capped at the maximum velocity. *)
Definition clamped_velocity (hybr : (R -> py R) -> R -> R * Z)
    (friction_rate max_velocity pipe_inner_diam : R) : R :=
  Rmin (fst (hybr (friction_rate_residual hybr friction_rate pipe_inner_diam
                     COPPER_EPSILON WATER_KIN_VISC) 5.0))
       max_velocity.

(** What the fixture-unit column of a computed row can hold. *)
Definition fixture_column (fixture_type : string) (r : result) : Prop :=
  (exists n, r = Units n)
  \/ r = Text out_of_range_msg
  \/ (fixture_type = "Valve"%string /\ r = Text next_size_msg).

(** A computed row for the pipe [p] = (nominal size, inner diameter). *)
Definition computed_row (max_velocity : R) (fixture_type : string)
    (p : R * R) (row : table_row) : Prop :=
  exists v fu dp ff,
    row = Values (fst p) v (v * snd p ^ 2 / 0.4084) fu fixture_type dp ff
                 (v * (snd p / 12.0) / WATER_KIN_VISC)
    /\ v <= max_velocity /\ v <> 0 /\ fixture_column fixture_type fu.

(** A window state with the same labels and the given tables. *)
Definition with_tables (st : display) (cw_rows hw_rows : list table_row) : display :=
  {| cw_friction_rate_label := cw_friction_rate_label st;
     cw_friction_rate_psi_label := cw_friction_rate_psi_label st;
     hw_friction_rate_label := hw_friction_rate_label st;
     hw_friction_rate_psi_label := hw_friction_rate_psi_label st;
     table_cw := cw_rows;
     table_hw := hw_rows |}.

(** The four labels show the two friction rates, in ft and in psi. *)
Definition labels_show (st : display) (cw_friction_rate hw_friction_rate : R) : Prop :=
  cw_friction_rate_label st = Some cw_friction_rate
  /\ cw_friction_rate_psi_label st = Some (cw_friction_rate / 2.31)
  /\ hw_friction_rate_label st = Some hw_friction_rate
  /\ hw_friction_rate_psi_label st = Some (hw_friction_rate / 2.31).

(** The guard of [calculate] lets the five inputs through. *)
Definition inputs_present (float : string -> option R) (e : entries) : Prop :=
  get_float float (cw_pressure_entry e) <> 0
  /\ get_float float (hw_pressure_entry e) <> 0
  /\ get_float float (length_entry e) <> 0
  /\ get_float float (cw_velocity_entry e) <> 0
  /\ get_float float (hw_velocity_entry e) <> 0.

End PipeFlowCalcs.

(* ===================================================================== *)
(** * Properties of the fixture-unit interpolation *)
(* ===================================================================== *)

Section ScanLoop.

Import FixtureUnits.
Local Open Scope Z_scope.

Lemma first_bracket_step (i : nat) (r1 r2 : row) (rest : list row) (gpm_input : Q) :
  first_bracket i (r1 :: r2 :: rest) gpm_input =
  if brackets gpm_input r1 r2 then Some (i, (r1, r2))
  else first_bracket (S i) (r2 :: rest) gpm_input.
Proof. reflexivity. Qed.

Lemma scan_step (r1 r2 : row) (rest : list row) (gpm_input : Q) (flush_type : string) :
  scan (r1 :: r2 :: rest) gpm_input flush_type =
  if brackets gpm_input r1 r2 then on_bracket r1 r2 gpm_input flush_type
  else scan (r2 :: rest) gpm_input flush_type.
Proof. reflexivity. Qed.

(** [scan] is the search followed by the body. *)
Lemma scan_first_bracket (rows : list row) (gpm_input : Q) (flush_type : string) (i0 : nat) :
  scan rows gpm_input flush_type =
  match first_bracket i0 rows gpm_input with
  | Some (_, (r1, r2)) => on_bracket r1 r2 gpm_input flush_type
  | None => Text unable_msg
  end.
Proof.
  revert i0; induction rows as [|r1 rest IH]; intros i0; [reflexivity|].
  destruct rest as [|r2 rest']; [reflexivity|].
  rewrite scan_step, first_bracket_step.
  destruct (brackets gpm_input r1 r2); [reflexivity|].
  apply IH.
Qed.

(** What the search returns is the selected pair. *)
Lemma first_bracket_selected (rows : list row) (gpm_input : Q) :
  forall i0 i r1 r2,
    first_bracket i0 rows gpm_input = Some (i, (r1, r2)) ->
    exists d, i = (i0 + d)%nat /\ selected rows gpm_input d r1 r2.
Proof.
  induction rows as [|q1 rest IH]; intros i0 i r1 r2 H; [discriminate|].
  destruct rest as [|q2 rest']; [discriminate|].
  rewrite first_bracket_step in H.
  destruct (brackets gpm_input q1 q2) eqn:Hb.
  - inversion H; subst. exists 0%nat. split; [lia|].
    split; [split; reflexivity|]. split; [exact Hb|]. intros j ? ? Hj; lia.
  - apply IH in H. destruct H as (d & -> & (Ha1 & Ha2) & Hbr & Hmin).
    exists (S d). split; [lia|].
    split; [split; assumption|]. split; [exact Hbr|].
    intros j p1 p2 Hj [Hp1 Hp2]. destruct j as [|j].
    + cbn in Hp1, Hp2. inversion Hp1; inversion Hp2; subst. exact Hb.
    + apply (Hmin j p1 p2); [lia|]. split; assumption.
Qed.

(** The selected pair is what the search returns. *)
Lemma selected_first_bracket (rows : list row) (gpm_input : Q) :
  forall d r1 r2 i0,
    selected rows gpm_input d r1 r2 ->
    first_bracket i0 rows gpm_input = Some ((i0 + d)%nat, (r1, r2)).
Proof.
  induction rows as [|q1 rest IH]; intros d r1 r2 i0 ((Ha1 & Ha2) & Hbr & Hmin).
  - destruct d; discriminate.
  - destruct rest as [|q2 rest'].
    + destruct d; cbn in Ha2; [discriminate|destruct d; discriminate].
    + rewrite first_bracket_step. destruct d as [|d].
      * cbn in Ha1, Ha2. inversion Ha1; inversion Ha2; subst.
        rewrite Hbr, Nat.add_0_r. reflexivity.
      * rewrite (Hmin 0%nat q1 q2); [|lia|split; reflexivity].
        rewrite (IH d r1 r2 (S i0)).
        -- rewrite Nat.add_succ_r. reflexivity.
        -- split; [split; assumption|]. split; [exact Hbr|].
           intros j p1 p2 Hj [Hp1 Hp2].
           apply (Hmin (S j) p1 p2); [lia|]. split; assumption.
Qed.

(** The selected pair is unique. *)
Lemma selected_unique (rows : list row) (gpm_input : Q) i r1 r2 i' r1' r2' :
  selected rows gpm_input i r1 r2 ->
  selected rows gpm_input i' r1' r2' ->
  i = i' /\ r1 = r1' /\ r2 = r2'.
Proof.
  intros H H'.
  apply (selected_first_bracket _ _ _ _ _ 0%nat) in H.
  apply (selected_first_bracket _ _ _ _ _ 0%nat) in H'.
  rewrite H in H'. inversion H'. auto.
Qed.

(** A flow between the first row and row [k] is bracketed by a pair that
    starts before row [k]: every failed comparison moves the lower bound
    one row up. *)
Lemma first_bracket_before (gpm_input : Q) :
  forall rows r0 k rk i0,
    nth_error (r0 :: rows) k = Some rk ->
    (1 <= k)%nat ->
    (inject_Z (row_gpm r0) <= gpm_input)%Q ->
    (gpm_input <= inject_Z (row_gpm rk))%Q ->
    exists d r1 r2,
      (d < k)%nat /\
      first_bracket i0 (r0 :: rows) gpm_input = Some ((i0 + d)%nat, (r1, r2)).
Proof.
  induction rows as [|r1 rest IH]; intros r0 k rk i0 Hk Hk1 Hlo Hhi.
  - destruct k as [|k]; [lia|]. destruct k; discriminate.
  - destruct k as [|k]; [lia|]. rewrite first_bracket_step.
    destruct (Qle_bool gpm_input (inject_Z (row_gpm r1))) eqn:Hle.
    + exists 0%nat, r0, r1. split; [lia|].
      unfold brackets. rewrite Hle.
      apply Qle_bool_iff in Hlo. rewrite Hlo, Nat.add_0_r. reflexivity.
    + assert (Hlt : (inject_Z (row_gpm r1) < gpm_input)%Q).
      { apply Qnot_le_lt. intro Hc. apply Qle_bool_iff in Hc. congruence. }
      unfold brackets. rewrite Hle, andb_false_r.
      destruct k as [|k].
      * cbn in Hk. inversion Hk; subst.
        exfalso. exact (Qlt_not_le _ _ Hlt Hhi).
      * destruct (IH r1 (S k) rk (S i0)) as (d & q1 & q2 & Hd & Hfb);
          [exact Hk|lia|apply Qlt_le_weak; exact Hlt|exact Hhi|].
        exists (S d), q1, q2. split; [lia|].
        rewrite Hfb, Nat.add_succ_r. reflexivity.
Qed.

(** A test that no consecutive pair fails holds on every consecutive pair. *)
Lemma violations_nil_adjacent (P : row -> row -> bool) :
  forall rows i r1 r2,
    violations P rows = [] -> adjacent rows i r1 r2 -> P r1 r2 = true.
Proof.
  induction rows as [|q1 rest IH]; intros i r1 r2 Hv [H1 H2].
  - destruct i; discriminate.
  - destruct rest as [|q2 rest'].
    + destruct i; cbn in H2; [discriminate|destruct i; discriminate].
    + cbn [violations] in Hv. destruct (P q1 q2) eqn:HP; [|discriminate].
      destruct i as [|i].
      * cbn in H1, H2. inversion H1; inversion H2; subst. exact HP.
      * apply (IH i); [exact Hv|split; assumption].
Qed.

(** With strictly increasing flows, a later row has a larger flow. *)
Lemma flows_increasing_lt (rows : list row) :
  flows_strictly_increasing rows ->
  forall d a ra rb,
    nth_error rows a = Some ra ->
    nth_error rows (a + S d) = Some rb ->
    row_gpm ra < row_gpm rb.
Proof.
  intros Hinc. induction d as [|d IH]; intros a ra rb Ha Hb.
  - replace (a + 1)%nat with (S a) in Hb by lia.
    apply Z.ltb_lt.
    apply (violations_nil_adjacent flow_lt rows a ra rb Hinc). split; assumption.
  - destruct (nth_error rows (a + S d)) as [rm|] eqn:Hm.
    + apply Z.lt_trans with (row_gpm rm); [apply (IH a); assumption|].
      apply Z.ltb_lt.
      apply (violations_nil_adjacent flow_lt rows (a + S d) rm rb Hinc).
      split; [exact Hm|]. replace (S (a + S d)) with (a + S (S d))%nat by lia. exact Hb.
    + apply nth_error_None in Hm.
      assert (nth_error rows (a + S (S d)) <> None) by congruence.
      apply nth_error_Some in H. lia.
Qed.

End ScanLoop.

Section FixtureTable.

Import FixtureUnits.
Local Open Scope Z_scope.
Local Open Scope string_scope.

Lemma interpolate_on_inside (table : list row) (first : row) (gpm_input : Q) (flush_type : string) :
  hd_error table = Some first ->
  (inject_Z (row_gpm first) <= gpm_input)%Q ->
  (gpm_input <= inject_Z (row_gpm (last table first)))%Q ->
  interpolate_on table gpm_input flush_type = scan table gpm_input flush_type.
Proof.
  intros Hhd Hlo Hhi. destruct table as [|r rest]; [discriminate|].
  inversion Hhd; subst r. unfold interpolate_on.
  destruct (Qlt_le_dec gpm_input (inject_Z (row_gpm first))) as [Hc|_].
  - exfalso. exact (Qlt_not_le _ _ Hc Hlo).
  - destruct (Qlt_le_dec (inject_Z (row_gpm (last (first :: rest) first))) gpm_input) as [Hc|_].
    + exfalso. exact (Qlt_not_le _ _ Hc Hhi).
    + reflexivity.
Qed.

Lemma interpolate_on_outside (table : list row) (first : row) (gpm_input : Q) (flush_type : string) :
  hd_error table = Some first ->
  (gpm_input < inject_Z (row_gpm first))%Q
  \/ (inject_Z (row_gpm (last table first)) < gpm_input)%Q ->
  interpolate_on table gpm_input flush_type = Text out_of_range_msg.
Proof.
  intros Hhd Hout. destruct table as [|r rest]; [discriminate|].
  inversion Hhd; subst r. unfold interpolate_on.
  destruct (Qlt_le_dec gpm_input (inject_Z (row_gpm first))) as [_|Hlo]; [reflexivity|].
  destruct (Qlt_le_dec (inject_Z (row_gpm (last (first :: rest) first))) gpm_input) as [_|Hhi];
    [reflexivity|].
  destruct Hout as [Hc|Hc]; exfalso.
  - exact (Qlt_not_le _ _ Hc Hlo).
  - exact (Qlt_not_le _ _ Hc Hhi).
Qed.

Lemma fixture_data_first : hd_error fixture_data = Some (1, 0, None).
Proof. reflexivity. Qed.

Lemma fixture_data_last : last fixture_data (1, 0, None) = (500, 3620, Some 3620).
Proof. reflexivity. Qed.

Lemma fixture_data_flows : flows_strictly_increasing fixture_data.
Proof. reflexivity. Qed.

Lemma interpolate_in_range (gpm_input : Q) (flush_type : string) :
  (1 <= gpm_input)%Q -> (gpm_input <= 500)%Q ->
  interpolate_fixture_units gpm_input flush_type = scan fixture_data gpm_input flush_type.
Proof.
  intros Hlo Hhi. unfold interpolate_fixture_units.
  apply (interpolate_on_inside fixture_data (1, 0, None)).
  - exact fixture_data_first.
  - exact Hlo.
  - rewrite fixture_data_last. exact Hhi.
Qed.

(** In range, the loop stops at a pair of the table, whatever the mode. *)
Lemma in_range_selected (gpm_input : Q) :
  (1 <= gpm_input)%Q -> (gpm_input <= 500)%Q ->
  exists i r1 r2,
    selected fixture_data gpm_input i r1 r2
    /\ row_gpm r1 < row_gpm r2
    /\ forall flush_type,
         interpolate_fixture_units gpm_input flush_type
         = on_bracket r1 r2 gpm_input flush_type.
Proof.
  intros Hlo Hhi.
  destruct (first_bracket_before gpm_input (tl fixture_data) (1, 0, None)
              124%nat (500, 3620, Some 3620) 0%nat)
    as (d & r1 & r2 & _ & Hfb); [reflexivity|lia|exact Hlo|exact Hhi|].
  change ((1, 0, None) :: tl fixture_data) with fixture_data in Hfb.
  destruct (first_bracket_selected _ _ _ _ _ _ Hfb) as (d' & _ & Hsel).
  exists d', r1, r2. split; [exact Hsel|]. split.
  - apply Z.ltb_lt.
    apply (violations_nil_adjacent flow_lt fixture_data d' r1 r2 fixture_data_flows).
    exact (proj1 Hsel).
  - intros flush_type. rewrite interpolate_in_range by assumption.
    rewrite (scan_first_bracket _ _ _ 0%nat), Hfb. reflexivity.
Qed.

Lemma brackets_true (gpm_input : Q) (r1 r2 : row) :
  brackets gpm_input r1 r2 = true ->
  (inject_Z (row_gpm r1) <= gpm_input)%Q /\ (gpm_input <= inject_Z (row_gpm r2))%Q.
Proof.
  unfold brackets. intros H. apply andb_true_iff in H. destruct H as [H1 H2].
  split; apply Qle_bool_iff; assumption.
Qed.

(** The interpolation formula as the specification writes it. *)
Lemma floor_interp_formula (v1 v2 : Z) (gpm_input : Q) (gpm1 gpm2 : Z) :
  gpm1 < gpm2 ->
  floor_interp v1 v2 gpm_input gpm1 gpm2 =
  Units (Qfloor (inject_Z v1
                 + (inject_Z v2 - inject_Z v1) * (gpm_input - inject_Z gpm1)
                   / (inject_Z gpm2 - inject_Z gpm1))%Q).
Proof.
  intros Hlt. unfold floor_interp.
  destruct (Z.eqb_spec (gpm2 - gpm1) 0) as [Hc|_]; [lia|].
  f_equal. apply Qfloor_comp.
  unfold Z.sub. rewrite !inject_Z_plus, !inject_Z_opp. reflexivity.
Qed.

Lemma on_bracket_tank (r1 r2 : row) (gpm_input : Q) (flush_type : string) :
  lower flush_type = "tank" ->
  on_bracket r1 r2 gpm_input flush_type
  = floor_interp (row_tank r1) (row_tank r2) gpm_input (row_gpm r1) (row_gpm r2).
Proof.
  intros H. destruct r1 as [[g1 t1] v1], r2 as [[g2 t2] v2].
  unfold on_bracket. rewrite H. reflexivity.
Qed.

Lemma on_bracket_valve (r1 r2 : row) (gpm_input : Q) (flush_type : string) :
  lower flush_type = "valve" ->
  on_bracket r1 r2 gpm_input flush_type
  = match row_valve r1, row_valve r2 with
    | Some a, Some b => floor_interp a b gpm_input (row_gpm r1) (row_gpm r2)
    | Some a, None => Units a
    | None, _ => Text next_size_msg
    end.
Proof.
  intros H. destruct r1 as [[g1 t1] v1], r2 as [[g2 t2] v2].
  unfold on_bracket. rewrite H. reflexivity.
Qed.

Lemma on_bracket_other (r1 r2 : row) (gpm_input : Q) (flush_type : string) :
  lower flush_type <> "tank" -> lower flush_type <> "valve" ->
  on_bracket r1 r2 gpm_input flush_type = Text invalid_flush_msg.
Proof.
  intros Ht Hv. destruct r1 as [[g1 t1] v1], r2 as [[g2 t2] v2].
  unfold on_bracket.
  destruct (String.eqb_spec (lower flush_type) "tank") as [Hc|_]; [contradiction|].
  destruct (String.eqb_spec (lower flush_type) "valve") as [Hc|_]; [contradiction|].
  reflexivity.
Qed.

Lemma Qle_bool_inject_Z_false (a b : Z) :
  b < a -> Qle_bool (inject_Z a) (inject_Z b) = false.
Proof.
  intros Hlt. destruct (Qle_bool (inject_Z a) (inject_Z b)) eqn:H; [|reflexivity].
  apply Qle_bool_iff in H. rewrite <- Zle_Qle in H. lia.
Qed.

(** With strictly increasing flows, a flow equal to the upper row of a
    consecutive pair selects that pair: every earlier pair ends below it. *)
Lemma breakpoint_selected (rows : list row) (k : nat) (rp rk : row) :
  flows_strictly_increasing rows ->
  adjacent rows k rp rk ->
  selected rows (inject_Z (row_gpm rk)) k rp rk.
Proof.
  intros Hinc Hadj. split; [exact Hadj|]. split.
  - unfold brackets. apply andb_true_iff. split; apply Qle_bool_iff.
    + rewrite <- Zle_Qle. apply Z.lt_le_incl. apply Z.ltb_lt.
      exact (violations_nil_adjacent flow_lt rows k rp rk Hinc Hadj).
    + apply Qle_refl.
  - intros j q1 q2 Hj [_ Hq2]. unfold brackets.
    rewrite (Qle_bool_inject_Z_false (row_gpm rk) (row_gpm q2)).
    + apply andb_false_r.
    + apply (flows_increasing_lt rows Hinc (k - j - 1) (S j) q2 rk Hq2).
      replace (S j + S (k - j - 1))%nat with (S k) by lia. exact (proj2 Hadj).
Qed.

(** The rows below 22 GPM carry no valve entry. *)
Lemma low_rows_unrated (i : nat) (r : row) :
  (i < 21)%nat -> nth_error fixture_data i = Some r -> row_valve r = None.
Proof.
  intros Hi H.
  do 21 (destruct i as [|i]; [inversion H; reflexivity|]). lia.
Qed.

Lemma low_rows_flow (i : nat) (r : row) :
  (i < 21)%nat -> nth_error fixture_data (S i) = Some r -> row_gpm r <= 22.
Proof.
  intros Hi H.
  do 21 (destruct i as [|i]; [inversion H; cbn; lia|]). lia.
Qed.

(** The rows from 22 GPM on all carry a valve entry. *)
Lemma high_rows_rated (i : nat) (r : row) :
  (21 <= i)%nat -> nth_error fixture_data i = Some r -> row_valve r <> None.
Proof.
  intros Hi H.
  assert (Hall : forallb (fun q => match row_valve q with Some _ => true | None => false end)
                   (skipn 21 fixture_data) = true) by reflexivity.
  rewrite forallb_forall in Hall.
  specialize (Hall r). destruct (row_valve r); [discriminate|].
  assert (Hin : In r (skipn 21 fixture_data)).
  { apply (nth_error_In _ (i - 21)). rewrite nth_error_skipn.
    replace (21 + (i - 21))%nat with i by lia. exact H. }
  specialize (Hall Hin). discriminate.
Qed.

(** The valve-mode policy on any table: at a pair with an undefined valve
    entry the lower entry is handed back if defined, the message if not. *)
Lemma valve_policy_on (table : list row) (first : row) (gpm_input : Q)
    (flush_type : string) (i : nat) (r1 r2 : row) :
  lower flush_type = "valve" ->
  hd_error table = Some first ->
  (inject_Z (row_gpm first) <= gpm_input)%Q ->
  (gpm_input <= inject_Z (row_gpm (last table first)))%Q ->
  selected table gpm_input i r1 r2 ->
  row_valve r1 = None \/ row_valve r2 = None ->
  interpolate_on table gpm_input flush_type
  = match row_valve r1 with
    | Some a => Units a
    | None => Text next_size_msg
    end.
Proof.
  intros Hmode Hhd Hlo Hhi Hsel Hnone.
  rewrite (interpolate_on_inside table first) by assumption.
  rewrite (scan_first_bracket _ _ _ 0%nat).
  rewrite (selected_first_bracket _ _ _ _ _ 0%nat Hsel).
  rewrite on_bracket_valve by exact Hmode.
  destruct (row_valve r1) as [a|], (row_valve r2) as [b|]; try reflexivity.
  destruct Hnone; discriminate.
Qed.

(** In valve mode a flow between 1 and 22 GPM stops the loop at a pair
    whose lower row is unrated. *)
Lemma valve_low_flow (gpm_input : Q) (flush_type : string) :
  (1 <= gpm_input)%Q -> (gpm_input <= 22)%Q ->
  lower flush_type = "valve" ->
  exists i r1 r2,
    selected fixture_data gpm_input i r1 r2
    /\ row_valve r1 = None
    /\ interpolate_fixture_units gpm_input flush_type = Text next_size_msg.
Proof.
  intros Hlo H22 Hmode.
  assert (Hhi : (gpm_input <= 500)%Q).
  { apply Qle_trans with 22%Q; [exact H22|]. unfold Qle; simpl; lia. }
  destruct (in_range_selected gpm_input Hlo Hhi)
    as (i0 & q1 & q2 & Hsel0 & _ & Hres).
  destruct (first_bracket_before gpm_input (tl fixture_data) (1, 0, None)
              21%nat (22, 34, Some 5) 0%nat)
    as (d & r1 & r2 & Hd & Hfb); [reflexivity|lia|exact Hlo|exact H22|].
  change ((1, 0, None) :: tl fixture_data) with fixture_data in Hfb.
  destruct (first_bracket_selected _ _ _ _ _ _ Hfb) as (d' & Hdd & Hsel).
  assert (Hv : row_valve r1 = None).
  { apply (low_rows_unrated d'); [cbn in Hdd; lia|exact (proj1 (proj1 Hsel))]. }
  exists d', r1, r2. split; [exact Hsel|]. split; [exact Hv|].
  destruct (selected_unique _ _ _ _ _ _ _ _ Hsel0 Hsel) as (_ & -> & ->).
  rewrite Hres, on_bracket_valve by exact Hmode.
  rewrite Hv. reflexivity.
Qed.

End FixtureTable.

(* ===================================================================== *)
(** * The fixture-unit table and its interpolation: main results *)
(* ===================================================================== *)

Section FixtureUnitResults.

Import FixtureUnits.
Local Open Scope Z_scope.
Local Open Scope string_scope.

(** C3.  The table's flows are strictly increasing, but its tank column
    and its valve column are not monotone: exactly one consecutive pair,
    the rows for 280 and 290 GPM, breaks each of the two orders, the entry
    2583 at 280 GPM being followed by 1668 at 290 GPM. *)
Theorem fixture_data_monotonicity :
  flows_strictly_increasing fixture_data
  /\ violations tank_le fixture_data
     = [((280, 2583, Some 2583), (290, 1668, Some 1668))]
  /\ violations valve_le fixture_data
     = [((280, 2583, Some 2583), (290, 1668, Some 1668))]
  /\ ~ tank_non_decreasing fixture_data
  /\ ~ valve_non_decreasing fixture_data
  /\ interpolate_fixture_units 280 "tank" = Units 2583
  /\ interpolate_fixture_units 290 "tank" = Units 1668.
Proof.
  repeat split; try reflexivity; intro H; vm_compute in H; discriminate.
Qed.



(** C5.  In valve mode, take an in-range flow and a consecutive pair of
    rows that brackets it and has an undefined valve entry on either side.
    The call returns the lower row's valve entry if that is defined and the
    next-size message otherwise; nothing is interpolated and no entry is
    read as 0.  In this table the lower entry of such a pair is always
    undefined, so the answer is the message; this is the case of every
    flow up to 22 GPM, where the loop stops at such a pair.  The same
    policy holds on any table for the pair the loop stops at. *)
Theorem valve_undefined_entries (gpm_input : Q) (flush_type : string) :
  (1 <= gpm_input)%Q -> (gpm_input <= 500)%Q ->
  lower flush_type = "valve" ->
  (forall i r1 r2,
      adjacent fixture_data i r1 r2 ->
      brackets gpm_input r1 r2 = true ->
      row_valve r1 = None \/ row_valve r2 = None ->
      interpolate_fixture_units gpm_input flush_type
      = match row_valve r1 with
        | Some a => Units a
        | None => Text next_size_msg
        end
      /\ row_valve r1 = None)
  /\ ((gpm_input <= 22)%Q ->
      exists i r1 r2,
        selected fixture_data gpm_input i r1 r2
        /\ row_valve r1 = None
        /\ interpolate_fixture_units gpm_input flush_type = Text next_size_msg)
  /\ (forall table first i r1 r2,
        hd_error table = Some first ->
        (inject_Z (row_gpm first) <= gpm_input)%Q ->
        (gpm_input <= inject_Z (row_gpm (last table first)))%Q ->
        selected table gpm_input i r1 r2 ->
        row_valve r1 = None \/ row_valve r2 = None ->
        interpolate_on table gpm_input flush_type
        = match row_valve r1 with
          | Some a => Units a
          | None => Text next_size_msg
          end).
Proof.
  intros Hlo Hhi Hmode. split; [|split].
  - intros i r1 r2 [Ha1 Ha2] Hbr Hnone.
    assert (Hi : (i < 21)%nat).
    { destruct (Nat.lt_ge_cases i 21) as [|Hge]; [assumption|exfalso].
      destruct Hnone as [Hn|Hn].
      - exact (high_rows_rated i r1 Hge Ha1 Hn).
      - apply (high_rows_rated (S i) r2); [lia|exact Ha2|exact Hn]. }
    pose proof (low_rows_unrated i r1 Hi Ha1) as Hv.
    split; [|exact Hv]. rewrite Hv.
    apply brackets_true in Hbr. destruct Hbr as [_ Hup].
    assert (H22 : (gpm_input <= 22)%Q).
    { apply Qle_trans with (inject_Z (row_gpm r2)); [exact Hup|].
      change 22%Q with (inject_Z 22). rewrite <- Zle_Qle.
      exact (low_rows_flow i r2 Hi Ha2). }
    destruct (valve_low_flow gpm_input flush_type Hlo H22 Hmode)
      as (_ & _ & _ & _ & _ & Hres).
    exact Hres.
  - intros H22. exact (valve_low_flow gpm_input flush_type Hlo H22 Hmode).
  - intros table first i r1 r2.
    exact (valve_policy_on table first gpm_input flush_type i r1 r2 Hmode).
Qed.

Lemma valve_undefined_entries_witness :
  (exists i r1 r2,
      selected fixture_data (43 # 2) i r1 r2
      /\ row_valve r1 = None
      /\ interpolate_fixture_units (43 # 2) "Valve" = Text next_size_msg)
  /\ interpolate_on [(1, 0, Some 4); (2, 1, None); (3, 3, Some 9)] (3 # 2) "Valve"
     = Units 4.
Proof.
  assert (Hlo : (1 <= 43 # 2)%Q) by (unfold Qle; simpl; lia).
  assert (Hhi : (43 # 2 <= 500)%Q) by (unfold Qle; simpl; lia).
  assert (Hlo' : (1 <= 3 # 2)%Q) by (unfold Qle; simpl; lia).
  assert (Hhi' : (3 # 2 <= 500)%Q) by (unfold Qle; simpl; lia).
  split.
  - apply (proj1 (proj2 (valve_undefined_entries (43 # 2) "Valve" Hlo Hhi eq_refl))).
    unfold Qle; simpl; lia.
  - apply (proj2 (proj2 (valve_undefined_entries (3 # 2) "Valve" Hlo' Hhi' eq_refl))
             [(1, 0, Some 4); (2, 1, None); (3, 3, Some 9)] (1, 0, Some 4)
             0%nat (1, 0, Some 4) (2, 1, None)).
    + reflexivity.
    + unfold Qle; simpl; lia.
    + unfold Qle; simpl; lia.
    + split; [split; reflexivity|]. split; [reflexivity|].
      intros j q1 q2 Hj. lia.
    + right. reflexivity.
Defined.

(** C6.  A flow below 1 GPM or above 500 GPM yields the out-of-range
    message in every mode; in range, a mode whose lowercase form is
    neither "tank" nor "valve" yields the invalid-flush-type message.
    Both are strings, so neither is a numeric result, and the two differ
    from each other and from the next-size message. *)
Theorem out_of_range_and_invalid_mode :
  (forall (gpm_input : Q) (flush_type : string),
      (gpm_input < 1)%Q \/ (500 < gpm_input)%Q ->
      interpolate_fixture_units gpm_input flush_type = Text out_of_range_msg)
  /\ (forall (gpm_input : Q) (flush_type : string),
        (1 <= gpm_input)%Q -> (gpm_input <= 500)%Q ->
        lower flush_type <> "tank" -> lower flush_type <> "valve" ->
        interpolate_fixture_units gpm_input flush_type = Text invalid_flush_msg)
  /\ (forall n, Text out_of_range_msg <> Units n)
  /\ (forall n, Text invalid_flush_msg <> Units n)
  /\ invalid_flush_msg <> out_of_range_msg
  /\ invalid_flush_msg <> next_size_msg
  /\ out_of_range_msg <> next_size_msg.
Proof.
  split; [|split; [|repeat split; intros; discriminate]].
  - intros gpm_input flush_type Hout. unfold interpolate_fixture_units.
    apply (interpolate_on_outside fixture_data (1, 0, None)).
    + exact fixture_data_first.
    + rewrite fixture_data_last. exact Hout.
  - intros gpm_input flush_type Hlo Hhi Ht Hv.
    destruct (in_range_selected gpm_input Hlo Hhi) as (i & r1 & r2 & _ & _ & Hres).
    rewrite Hres. apply on_bracket_other; assumption.
Qed.

Lemma out_of_range_and_invalid_mode_witness :
  interpolate_fixture_units (1 # 2) "tank" = Text out_of_range_msg
  /\ interpolate_fixture_units 501 "valve" = Text out_of_range_msg
  /\ interpolate_fixture_units 61 "pump" = Text invalid_flush_msg.
Proof.
  split; [|split].
  - apply (proj1 out_of_range_and_invalid_mode). left. reflexivity.
  - apply (proj1 out_of_range_and_invalid_mode). right. reflexivity.
  - apply (proj1 (proj2 out_of_range_and_invalid_mode)).
    + unfold Qle; simpl; lia.
    + unfold Qle; simpl; lia.
    + discriminate.
    + discriminate.
Defined.

(** C9.  At exactly 22 GPM in valve mode the loop stops at the pair of
    rows (21, 22), whose lower valve entry is undefined, so the call
    returns the next-size message and not the 5 stored at 22 GPM.  More
    generally a flow equal to the upper row of a consecutive pair selects
    that pair, the one ending at the breakpoint. *)
Theorem breakpoint_bracket_ends_there :
  interpolate_fixture_units 22 "valve" = Text next_size_msg
  /\ selected fixture_data 22 20 (21, 32, None) (22, 34, Some 5)
  /\ nth_error fixture_data 21 = Some (22, 34, Some 5)
  /\ (forall k rp rk,
        adjacent fixture_data k rp rk ->
        selected fixture_data (inject_Z (row_gpm rk)) k rp rk
        /\ forall flush_type,
             interpolate_fixture_units (inject_Z (row_gpm rk)) flush_type
             = on_bracket rp rk (inject_Z (row_gpm rk)) flush_type).
Proof.
  split; [reflexivity|]. split; [|split; [reflexivity|]].
  - apply (breakpoint_selected fixture_data 20 (21, 32, None) (22, 34, Some 5)
             fixture_data_flows).
    split; reflexivity.
  - intros k rp rk Hadj.
    pose proof (breakpoint_selected fixture_data k rp rk fixture_data_flows Hadj) as Hsel.
    split; [exact Hsel|]. intros flush_type.
    assert (Hk : (S k < 125)%nat).
    { apply (nth_error_Some fixture_data (S k)). rewrite (proj2 Hadj). discriminate. }
    assert (Hlo : (1 <= inject_Z (row_gpm rk))%Q).
    { change 1%Q with (inject_Z 1). rewrite <- Zle_Qle.
      apply Z.lt_le_incl.
      apply (flows_increasing_lt fixture_data fixture_data_flows k 0%nat (1, 0, None) rk);
        [reflexivity|exact (proj2 Hadj)]. }
    assert (Hhi : (inject_Z (row_gpm rk) <= 500)%Q).
    { change 500%Q with (inject_Z 500). rewrite <- Zle_Qle.
      destruct (Nat.eq_dec (S k) 124) as [E|E].
      - destruct Hadj as [_ H2]. rewrite E in H2. inversion H2. cbn. lia.
      - apply Z.lt_le_incl.
        apply (flows_increasing_lt fixture_data fixture_data_flows (124 - S k - 1) (S k)
                 rk (500, 3620, Some 3620)); [exact (proj2 Hadj)|].
        replace (S k + S (124 - S k - 1))%nat with 124%nat by lia. reflexivity. }
    destruct (in_range_selected _ Hlo Hhi) as (i & r1 & r2 & Hsel' & _ & Hres).
    destruct (selected_unique _ _ _ _ _ _ _ _ Hsel Hsel') as (_ & -> & ->).
    apply Hres.
Qed.

Lemma breakpoint_bracket_ends_there_witness :
  selected fixture_data (inject_Z (row_gpm (62, 185, Some 82))) 59
    (60, 175, Some 76) (62, 185, Some 82)
  /\ forall flush_type,
       interpolate_fixture_units (inject_Z (row_gpm (62, 185, Some 82))) flush_type
       = on_bracket (60, 175, Some 76) (62, 185, Some 82)
           (inject_Z (row_gpm (62, 185, Some 82))) flush_type.
Proof.
  apply (proj2 (proj2 (proj2 breakpoint_bracket_ends_there)) 59%nat).
  split; reflexivity.
Defined.



End FixtureUnitResults.

(* ===================================================================== *)
(** * Properties of the solver stack *)
(* ===================================================================== *)

Section FluidResults.

Import FluidDynamics.
Local Open Scope R_scope.

Lemma truediv_nonzero (k : operand) (x y : R) :
  y <> 0 -> truediv k x y = Ret (x / y).
Proof.
  intros Hy. unfold truediv. destruct (Req_EM_T y 0); [contradiction|reflexivity].
Qed.

(** With a non-zero diameter no evaluation of the Colebrook-White callback
    raises. *)
Lemma colebrook_white_no_raise (epsilon D_ft re f : R) (e : exn) :
  D_ft <> 0 -> colebrook_white epsilon D_ft re f <> Raise e.
Proof.
  intros HD. unfold colebrook_white.
  rewrite truediv_nonzero by lra. cbn [bind].
  unfold np_sqrt. destruct (Rlt_dec f 0); [discriminate|]. cbn [bind].
  unfold truediv at 1. destruct (Req_EM_T (sqrt f) 0); [discriminate|]. cbn [bind].
  unfold truediv. destruct (Req_EM_T (re * sqrt f) 0); [discriminate|]. cbn [bind].
  unfold np_log10. destruct (Rlt_dec 0 _); discriminate.
Qed.

Lemma fsolve_no_raise (hybr : (R -> py R) -> R -> R * Z) (func : R -> py R) (x0 : R) :
  (forall e, func x0 <> Raise e) ->
  fsolve hybr func x0 = Ret (fst (hybr func x0)).
Proof.
  intros H. unfold fsolve. destruct (func x0) as [y| |e]; try reflexivity.
  exfalso. exact (H e eq_refl).
Qed.

(** No evaluation of the velocity residual raises: its divisions are
    numpy's, and the inner callback is only reached with a Reynolds number
    of at least 2000, which a zero diameter cannot produce. *)
Lemma friction_rate_residual_no_raise (hybr : (R -> py R) -> R -> R * Z)
    (target diam_inch epsilon kin_visc velocity : R) (e : exn) :
  friction_rate_residual hybr target diam_inch epsilon kin_visc velocity <> Raise e.
Proof.
  unfold friction_rate_residual, reynolds_num.
  unfold truediv at 1. destruct (Req_EM_T kin_visc 0) as [|Hnu]; [discriminate|].
  cbn [bind]. set (re := velocity * (diam_inch / 12.0) / kin_visc).
  unfold friction_factor_solver. destruct (Rlt_dec re 2000) as [Hlam|Hturb].
  - unfold truediv at 1. destruct (Req_EM_T re 0); [discriminate|]. cbn [bind].
    unfold darcy_weisbach_pressure_drop, truediv.
    destruct (Req_EM_T _ 0); discriminate.
  - assert (HD : diam_inch / 12.0 <> 0).
    { intros HD. apply Hturb. unfold re. rewrite HD.
      unfold Rdiv. rewrite Rmult_0_r, Rmult_0_l. lra. }
    rewrite fsolve_no_raise by (intros e'; apply colebrook_white_no_raise; exact HD).
    cbn [bind]. unfold darcy_weisbach_pressure_drop, truediv.
    destruct (Req_EM_T _ 0); discriminate.
Qed.

Lemma no_budget_hybr_iterate (func : R -> py R) (x0 : R) :
  fst (no_budget_hybr func x0) = x0.
Proof.
  unfold no_budget_hybr. destruct (func x0) as [y| |e]; try reflexivity.
  destruct (Req_EM_T y 0); reflexivity.
Qed.

Lemma colebrook_white_at_zero (epsilon D_ft re : R) :
  D_ft <> 0 -> colebrook_white epsilon D_ft re 0 = NonFinite.
Proof.
  intros HD. unfold colebrook_white.
  rewrite truediv_nonzero by lra. cbn [bind].
  unfold np_sqrt. destruct (Rlt_dec 0 0) as [Hc|_]; [lra|]. cbn [bind].
  unfold truediv at 1. rewrite sqrt_0.
  destruct (Req_EM_T 0 0) as [_|Hc]; [reflexivity|contradiction].
Qed.

(** At velocity 0 the Reynolds number is 0 and the residual has no value. *)
Lemma friction_rate_residual_at_zero (hybr : (R -> py R) -> R -> R * Z)
    (target diam_inch epsilon kin_visc : R) :
  kin_visc <> 0 ->
  friction_rate_residual hybr target diam_inch epsilon kin_visc 0 = NonFinite.
Proof.
  intros Hnu. unfold friction_rate_residual, reynolds_num.
  rewrite truediv_nonzero by exact Hnu. cbn [bind].
  unfold friction_factor_solver.
  replace (0 * (diam_inch / 12.0) / kin_visc) with 0 by (unfold Rdiv; ring).
  destruct (Rlt_dec 0 2000) as [_|Hc]; [|lra].
  unfold truediv. destruct (Req_EM_T 0 0) as [_|Hc]; [reflexivity|contradiction].
Qed.

Lemma no_budget_hybr_no_value (func : R -> py R) (x0 : R) :
  func x0 = NonFinite -> no_budget_hybr func x0 = (x0, 5%Z).
Proof. intros H. unfold no_budget_hybr. rewrite H. reflexivity. Qed.




(** C2.  For a Reynolds number below 2000, [friction_factor_solver] is the
    division 64 / Re and nothing else: the root-finder, the roughness, the
    diameter and the initial guess play no part.  For Re <> 0 that is the
    number 64 / Re; at Re = 0 the division behaves as Python's does. *)
Theorem laminar_closed_form (hybr : (R -> py R) -> R -> R * Z) (k : operand)
    (re epsilon diam_inch initial_guess : R) :
  re < 2000 ->
  friction_factor_solver hybr k re epsilon diam_inch initial_guess = truediv k 64 re
  /\ (re <> 0 ->
      friction_factor_solver hybr k re epsilon diam_inch initial_guess = Ret (64 / re))
  /\ (forall hybr' epsilon' diam_inch' initial_guess',
        friction_factor_solver hybr k re epsilon diam_inch initial_guess
        = friction_factor_solver hybr' k re epsilon' diam_inch' initial_guess').
Proof.
  intros Hlam.
  assert (H : forall h e d g, friction_factor_solver h k re e d g = truediv k 64 re).
  { intros h e d g. unfold friction_factor_solver.
    destruct (Rlt_dec re 2000) as [_|Hc]; [reflexivity|contradiction]. }
  split; [apply H|]. split.
  - intros Hre. rewrite H. apply truediv_nonzero. exact Hre.
  - intros. rewrite !H. reflexivity.
Qed.

Lemma laminar_closed_form_witness :
  friction_factor_solver no_budget_hybr PyFloat 1000 0.000005 1.025 0.02
  = Ret (64 / 1000).
Proof.
  refine (proj1 (proj2 (laminar_closed_form no_budget_hybr PyFloat 1000 0.000005
                          1.025 0.02 _)) _); lra.
Defined.



End FluidResults.

(* ===================================================================== *)
(** * The solved velocity as a function of the target *)
(* ===================================================================== *)

Section ColebrookRoots.

Import FluidDynamics.
Local Open Scope R_scope.

Lemma ln_10_pos : 0 < ln 10.
Proof. rewrite <- ln_1. apply ln_increasing; lra. Qed.

Lemma inv_lt_inv (x y : R) : 0 < x -> 0 < y -> / x < / y -> y < x.
Proof.
  intros Hx Hy H. destruct (Rlt_le_dec y x) as [|Hle]; [assumption|].
  exfalso. apply (Rinv_le_contravar x y Hx) in Hle. lra.
Qed.

(** Along the roots of the Colebrook-White equation, [re * sqrt f] does
    not decrease when the Reynolds number grows: a smaller product would
    mean a larger logarithm argument, hence a larger [sqrt f], hence a
    larger product. *)
Lemma colebrook_root_monotone (a re1 re2 s1 s2 : R) :
  0 < re2 -> re2 <= re1 ->
  colebrook_root a re1 s1 -> colebrook_root a re2 s2 ->
  re2 * s2 <= re1 * s1.
Proof.
  intros Hre2 Hle (Hs1 & Harg1 & He1) (Hs2 & Harg2 & He2).
  destruct (Rle_lt_dec (re2 * s2) (re1 * s1)) as [|Hlt]; [assumption|exfalso].
  assert (Hw1 : 0 < re1 * s1) by (apply Rmult_lt_0_compat; lra).
  assert (Hw2 : 0 < re2 * s2) by (apply Rmult_lt_0_compat; lra).
  assert (Hinv : / (re2 * s2) < / (re1 * s1)).
  { apply Rinv_lt_contravar; [apply Rmult_lt_0_compat; assumption|assumption]. }
  assert (Hargs : a + 2.51 / (re2 * s2) < a + 2.51 / (re1 * s1)).
  { unfold Rdiv. apply Rplus_lt_compat_l. apply Rmult_lt_compat_l; lra. }
  pose proof (ln_increasing _ _ Harg2 Hargs) as Hln.
  pose proof ln_10_pos as H10.
  assert (Hq : ln (a + 2.51 / (re2 * s2)) / ln 10 < ln (a + 2.51 / (re1 * s1)) / ln 10).
  { unfold Rdiv. apply Rmult_lt_compat_r; [apply Rinv_0_lt_compat; assumption|assumption]. }
  assert (Hy : / s1 < / s2) by (unfold Rdiv in He1, He2; lra).
  apply inv_lt_inv in Hy; [|assumption|assumption].
  assert (re2 * s2 < re1 * s1); [|lra].
  apply Rle_lt_trans with (re1 * s2).
  - apply Rmult_le_compat_r; lra.
  - apply Rmult_lt_compat_l; lra.
Qed.

(** In the turbulent branch the root keeps [(re * sqrt f)^2] at or above
    128000 = 64 * 2000, the value the laminar formula reaches at the
    regime boundary: below it [1 / sqrt f] would stay under 5 and the
    Reynolds number under 2000. *)
Lemma colebrook_root_jump (a re s : R) :
  0 <= a -> 2000 <= re -> colebrook_root a re s -> 128000 <= (re * s) * (re * s).
Proof.
  intros Ha Hre (Hs & Harg & He).
  destruct (Rle_lt_dec 128000 (re * s * (re * s))) as [|Hlt]; [assumption|exfalso].
  assert (Hw : 0 < re * s) by (apply Rmult_lt_0_compat; lra).
  assert (Hw358 : re * s < 358) by nra.
  assert (Hinv : / 358 < / (re * s)).
  { apply Rinv_lt_contravar; [lra|assumption]. }
  assert (Hargs : 2.51 / 358 < a + 2.51 / (re * s)).
  { unfold Rdiv. apply Rlt_le_trans with (2.51 * / (re * s)).
    - apply Rmult_lt_compat_l; lra.
    - lra. }
  assert (Hpos : 0 < 2.51 / 358) by lra.
  pose proof (ln_increasing _ _ Hpos Hargs) as Hln.
  pose proof ln_10_pos as H10.
  assert (Hnum : 0 < 5 * ln 10 + 2 * ln (2.51 / 358)).
  { replace (5 * ln 10 + 2 * ln (2.51 / 358))
      with (ln (10 ^ 5 * ((2.51 / 358) * (2.51 / 358)))).
    - rewrite <- ln_1. apply ln_increasing; lra.
    - rewrite ln_mult by lra. rewrite ln_pow by lra.
      rewrite ln_mult by lra. simpl INR. lra. }
  assert (Hy : / s * ln 10 < 5 * ln 10).
  { assert (E : / s * ln 10 = - 2 * ln (a + 2.51 / (re * s))).
    { unfold Rdiv in He.
      assert (E' : / s = - (2 * (ln (a + 2.51 * / (re * s)) * / ln 10))) by lra.
      unfold Rdiv. rewrite E'. field. lra. }
    rewrite E. lra. }
  assert (Hy5 : / s < 5).
  { apply Rmult_lt_reg_r with (ln 10); assumption. }
  assert (Hs5 : / 5 < s).
  { apply inv_lt_inv; [assumption|lra|].
    rewrite Rinv_inv. exact Hy5. }
  nra.
Qed.

(** A zero of the callback is the square of a Colebrook-White root. *)
Lemma colebrook_white_root (epsilon D_ft re f : R) :
  D_ft <> 0 ->
  colebrook_white epsilon D_ft re f = Ret 0 ->
  colebrook_root (epsilon / (3.7 * D_ft)) re (sqrt f) /\ f = sqrt f * sqrt f.
Proof.
  intros HD. unfold colebrook_white.
  rewrite truediv_nonzero by lra. cbn [bind].
  unfold np_sqrt. destruct (Rlt_dec f 0) as [|Hf]; [discriminate|]. cbn [bind].
  unfold truediv at 1. destruct (Req_EM_T (sqrt f) 0) as [|Hs]; [discriminate|]. cbn [bind].
  unfold truediv. destruct (Req_EM_T (re * sqrt f) 0) as [|Hw]; [discriminate|]. cbn [bind].
  unfold np_log10. destruct (Rlt_dec 0 _) as [Harg|]; [|discriminate]. cbn [bind].
  intros H. injection H as H.
  split; [|symmetry; apply sqrt_sqrt; lra].
  split; [|split; assumption].
  pose proof (sqrt_pos f). lra.
Qed.

End ColebrookRoots.

Section SolvedVelocity.

Import FluidDynamics.
Local Open Scope R_scope.

Variable hybr : (R -> py R) -> R -> R * Z.

Lemma head_loss_scale_pos (diam_inch kin_visc : R) :
  0 < diam_inch -> 0 < kin_visc -> 0 < head_loss_scale diam_inch kin_visc.
Proof.
  intros Hd Hnu. unfold head_loss_scale, GRAVITY.
  assert (HD : 0 < diam_inch / 12.0) by lra.
  assert (Hq : 0 < kin_visc / (diam_inch / 12.0)).
  { unfold Rdiv at 1. apply Rmult_lt_0_compat; [lra|apply Rinv_0_lt_compat; lra]. }
  assert (Hk : 0 < 100.0 / (diam_inch / 12.0 * 2.0 * 32.174)).
  { unfold Rdiv at 1. apply Rmult_lt_0_compat; [lra|apply Rinv_0_lt_compat; lra]. }
  apply Rmult_lt_0_compat; [apply Rmult_lt_0_compat|]; assumption.
Qed.

(** The residual below a Reynolds number of 2000. *)
Lemma friction_rate_residual_laminar (target diam_inch epsilon kin_visc velocity : R) :
  0 < diam_inch -> 0 < kin_visc ->
  velocity * (diam_inch / 12.0) / kin_visc < 2000 ->
  velocity <> 0 ->
  friction_rate_residual hybr target diam_inch epsilon kin_visc velocity
  = Ret (64 * head_loss_scale diam_inch kin_visc
         * (velocity * (diam_inch / 12.0) / kin_visc) - target).
Proof.
  intros Hd Hnu Hlam Hv.
  unfold friction_rate_residual, reynolds_num.
  rewrite truediv_nonzero by lra. cbn [bind].
  unfold friction_factor_solver.
  destruct (Rlt_dec _ 2000) as [_|Hc]; [|contradiction].
  assert (Hre : velocity * (diam_inch / 12.0) / kin_visc <> 0).
  { unfold Rdiv at 1. apply Rmult_integral_contrapositive_currified.
    - apply Rmult_integral_contrapositive_currified; lra.
    - apply Rinv_neq_0_compat. lra. }
  rewrite truediv_nonzero by exact Hre. cbn [bind].
  unfold darcy_weisbach_pressure_drop.
  rewrite truediv_nonzero by (unfold GRAVITY; lra). cbn [bind].
  f_equal. unfold head_loss_scale, GRAVITY. field. lra.
Qed.

(** The residual from a Reynolds number of 2000 on. *)
Lemma friction_rate_residual_turbulent (target diam_inch epsilon kin_visc velocity : R) :
  0 < diam_inch -> 0 < kin_visc ->
  ~ velocity * (diam_inch / 12.0) / kin_visc < 2000 ->
  friction_rate_residual hybr target diam_inch epsilon kin_visc velocity
  = Ret (fst (hybr (colebrook_white epsilon (diam_inch / 12.0)
                      (velocity * (diam_inch / 12.0) / kin_visc)) 0.02)
         * 100.0 * velocity ^ 2 / (diam_inch / 12.0 * 2.0 * GRAVITY) - target).
Proof.
  intros Hd Hnu Hturb.
  unfold friction_rate_residual, reynolds_num.
  rewrite truediv_nonzero by lra. cbn [bind].
  unfold friction_factor_solver.
  destruct (Rlt_dec _ 2000) as [Hc|_]; [contradiction|].
  rewrite fsolve_no_raise by (intros e; apply colebrook_white_no_raise; lra).
  cbn [bind]. unfold darcy_weisbach_pressure_drop.
  rewrite truediv_nonzero by (unfold GRAVITY; lra). reflexivity.
Qed.

Hypothesis hybr_exact : exact_on_convergence hybr.

(** A reached target is the head loss at the returned velocity. *)
Lemma reached_head_loss (target diam_inch epsilon kin_visc velocity_guess v : R) :
  0 < diam_inch -> 0 < kin_visc ->
  reached hybr target diam_inch epsilon kin_visc velocity_guess v ->
  let re := v * (diam_inch / 12.0) / kin_visc in
  (re < 2000 /\ target = 64 * head_loss_scale diam_inch kin_visc * re)
  \/ (2000 <= re
      /\ exists s, colebrook_root (epsilon / (3.7 * (diam_inch / 12.0))) re s
                   /\ target = head_loss_scale diam_inch kin_visc
                               * ((re * s) * (re * s))).
Proof.
  intros Hd Hnu (Hret & Hconv & Hinner) re.
  unfold solve_velocity_given_pressure_drop in Hret.
  rewrite fsolve_no_raise in Hret
    by (intros e; apply friction_rate_residual_no_raise).
  injection Hret as Hv.
  pose proof (hybr_exact _ _ Hconv) as Hroot. rewrite Hv in Hroot.
  destruct (Rlt_dec re 2000) as [Hlam|Hturb].
  - left. split; [exact Hlam|].
    destruct (Req_EM_T v 0) as [Hv0|Hv0].
    + rewrite Hv0, (friction_rate_residual_at_zero hybr) in Hroot by lra. discriminate.
    + rewrite friction_rate_residual_laminar in Hroot by assumption.
      injection Hroot as Hroot. fold re in Hroot. lra.
  - right. split; [lra|].
    rewrite friction_rate_residual_turbulent in Hroot by assumption.
    injection Hroot as Hroot. fold re in Hroot.
    assert (Hin : snd (hybr (colebrook_white epsilon (diam_inch / 12.0) re) 0.02) = 1%Z).
    { apply Hinner; [|exact Hturb].
      unfold reynolds_num. apply truediv_nonzero. lra. }
    apply hybr_exact in Hin.
    apply colebrook_white_root in Hin; [|lra].
    destruct Hin as [Hcr Hf].
    exists (sqrt (fst (hybr (colebrook_white epsilon (diam_inch / 12.0) re) 0.02))).
    split; [exact Hcr|].
    set (f := fst (hybr (colebrook_white epsilon (diam_inch / 12.0) re) 0.02)) in *.
    set (s := sqrt f) in *.
    rewrite Hf in Hroot.
    assert (E : s * s * 100.0 * v ^ 2 / (diam_inch / 12.0 * 2.0 * GRAVITY)
                = head_loss_scale diam_inch kin_visc * (re * s * (re * s))).
    { unfold head_loss_scale, re, GRAVITY. field. lra. }
    lra.
Qed.

End SolvedVelocity.

Section VelocityMonotone.

Import FluidDynamics.
Local Open Scope R_scope.

Lemma no_budget_hybr_exact : exact_on_convergence no_budget_hybr.
Proof.
  intros func x0. unfold no_budget_hybr.
  destruct (func x0) as [y| |e] eqn:Hf; cbn; try discriminate.
  destruct (Req_EM_T y 0) as [Hy|Hy]; cbn; [|discriminate].
  intros _. rewrite Hf, Hy. reflexivity.
Qed.

(** Started at a laminar root, the root-finder without budget reaches the
    target. *)
Lemma no_budget_hybr_reached (target diam_inch epsilon kin_visc v : R) :
  0 < diam_inch -> 0 < kin_visc -> v <> 0 ->
  v * (diam_inch / 12.0) / kin_visc < 2000 ->
  target = 64 * head_loss_scale diam_inch kin_visc
           * (v * (diam_inch / 12.0) / kin_visc) ->
  reached no_budget_hybr target diam_inch epsilon kin_visc v v.
Proof.
  intros Hd Hnu Hv Hlam Ht. split; [|split].
  - unfold solve_velocity_given_pressure_drop.
    rewrite fsolve_no_raise by (intros e; apply friction_rate_residual_no_raise).
    rewrite no_budget_hybr_iterate. reflexivity.
  - unfold no_budget_hybr at 1.
    rewrite friction_rate_residual_laminar by assumption.
    destruct (Req_EM_T _ 0) as [_|Hc]; [reflexivity|]. exfalso. lra.
  - intros re Hre Hturb. unfold reynolds_num in Hre.
    rewrite truediv_nonzero in Hre by lra. injection Hre as Hre.
    subst re. contradiction.
Qed.



End VelocityMonotone.

(* ===================================================================== *)
(** * Further properties of the fixture-unit interpolation *)
(* ===================================================================== *)

Section FixtureUnitExtras.

Import FixtureUnits.
Local Open Scope Z_scope.
Local Open Scope string_scope.

Lemma last_cons_default (rows : list row) :
  forall r0 d, last (r0 :: rows) d = last rows r0.
Proof.
  induction rows as [|r1 rest IH]; intros r0 d; [reflexivity|].
  change (last (r0 :: r1 :: rest) d) with (last (r1 :: rest) d).
  rewrite (IH r1 d), (IH r1 r0). reflexivity.
Qed.

Lemma nth_error_last (rows : list row) :
  forall r0, nth_error (r0 :: rows) (List.length rows) = Some (last rows r0).
Proof.
  induction rows as [|r1 rest IH]; intros r0; [reflexivity|].
  cbn [List.length nth_error]. rewrite IH, last_cons_default. reflexivity.
Qed.

(** The body run on a bracketing pair never produces the last message of
    the function. *)
Lemma on_bracket_not_unable (r1 r2 : row) (gpm_input : Q) (flush_type : string) :
  on_bracket r1 r2 gpm_input flush_type <> Text unable_msg.
Proof.
  destruct r1 as [[g1 t1] v1], r2 as [[g2 t2] v2]. unfold on_bracket, floor_interp.
  destruct (String.eqb _ "tank").
  - destruct (Z.eqb (g2 - g1) 0); discriminate.
  - destruct (String.eqb _ "valve"); [|discriminate].
    destruct v1 as [a|]; [|discriminate].
    destruct v2 as [b|]; [|discriminate].
    destruct (Z.eqb (g2 - g1) 0); discriminate.
Qed.

(** X1.  On any table, for a flow within the first and last flows: with
    two or more rows the loop always stops at some pair, so the closing
    message "Error: Unable to calculate fixture units." is never returned,
    whether or not the flows are sorted; with a single row it is always
    returned.  An empty table raises IndexError. *)
Theorem unable_message_reach (gpm_input : Q) (flush_type : string) :
  (forall r0 r1 rest,
      (inject_Z (row_gpm r0) <= gpm_input)%Q ->
      (gpm_input <= inject_Z (row_gpm (last (r1 :: rest) r0)))%Q ->
      interpolate_on (r0 :: r1 :: rest) gpm_input flush_type <> Text unable_msg
      /\ exists i q1 q2, selected (r0 :: r1 :: rest) gpm_input i q1 q2)
  /\ (forall r0,
        (inject_Z (row_gpm r0) <= gpm_input)%Q ->
        (gpm_input <= inject_Z (row_gpm r0))%Q ->
        interpolate_on [r0] gpm_input flush_type = Text unable_msg)
  /\ interpolate_on [] gpm_input flush_type = Raises IndexError.
Proof.
  split; [|split; [|reflexivity]].
  - intros r0 r1 rest Hlo Hhi.
    destruct (first_bracket_before gpm_input (r1 :: rest) r0
                (List.length (r1 :: rest)) (last (r1 :: rest) r0) 0%nat)
      as (d & q1 & q2 & _ & Hfb).
    + apply nth_error_last.
    + cbn [List.length]. lia.
    + exact Hlo.
    + exact Hhi.
    + split.
      * rewrite (interpolate_on_inside _ r0); [|reflexivity|exact Hlo|].
        -- rewrite (scan_first_bracket _ _ _ 0%nat), Hfb.
           apply on_bracket_not_unable.
        -- rewrite last_cons_default. exact Hhi.
      * destruct (first_bracket_selected _ _ _ _ _ _ Hfb) as (d' & _ & Hsel).
        exists d', q1, q2. exact Hsel.
  - intros r0 Hlo Hhi.
    rewrite (interpolate_on_inside _ r0); [reflexivity|reflexivity|exact Hlo|exact Hhi].
Qed.

Lemma unable_message_reach_witness :
  interpolate_on [(5, 1, None); (3, 2, None); (9, 7, None)] 6 "tank"
    <> Text unable_msg
  /\ interpolate_on [(4, 2, Some 1)] 4 "valve" = Text unable_msg.
Proof.
  split.
  - refine (proj1 (proj1 (unable_message_reach 6 "tank")
                     (5, 1, None) (3, 2, None) [(9, 7, None)] _ _));
      unfold Qle; simpl; lia.
  - refine (proj1 (proj2 (unable_message_reach 4 "valve")) (4, 2, Some 1) _ _);
      unfold Qle; simpl; lia.
Defined.

End FixtureUnitExtras.

Section InterpolationBounds.

Import FixtureUnits.
Import Lqa.
Local Open Scope Z_scope.

(** A point on the segment from [V1] to [V2] lies between any bounds of
    its ends. *)
Lemma segment_bounds (lo hi V1 V2 u D : Q) :
  (lo <= V1 -> V1 <= hi -> lo <= V2 -> V2 <= hi ->
   0 <= u -> u <= D -> 0 < D ->
   lo <= V1 + (V2 - V1) * u / D /\ V1 + (V2 - V1) * u / D <= hi)%Q.
Proof.
  intros.
  assert (E : (V1 + (V2 - V1) * u / D == (V1 * (D - u) + V2 * u) / D)%Q).
  { field. lra. }
  rewrite E. split.
  - apply Qle_shift_div_l; [assumption|]. nra.
  - apply Qle_shift_div_r; [assumption|]. nra.
Qed.

Lemma floor_interp_bounds (lo hi v1 v2 : Z) (gpm_input : Q) (gpm1 gpm2 : Z) :
  gpm1 < gpm2 ->
  (inject_Z gpm1 <= gpm_input)%Q -> (gpm_input <= inject_Z gpm2)%Q ->
  lo <= v1 <= hi -> lo <= v2 <= hi ->
  exists n, floor_interp v1 v2 gpm_input gpm1 gpm2 = Units n /\ lo <= n <= hi.
Proof.
  intros Hlt H1 H2 [Hl1 Hh1] [Hl2 Hh2].
  rewrite floor_interp_formula by exact Hlt.
  eexists. split; [reflexivity|].
  destruct (segment_bounds (inject_Z lo) (inject_Z hi) (inject_Z v1) (inject_Z v2)
              (gpm_input - inject_Z gpm1) (inject_Z gpm2 - inject_Z gpm1))
    as [Hlo Hhi]; try (rewrite <- Zle_Qle; assumption); try lra.
  - rewrite Zlt_Qlt in Hlt. lra.
  - split.
    + rewrite <- (Qfloor_Z lo). apply Qfloor_resp_le. exact Hlo.
    + rewrite <- (Qfloor_Z hi). apply Qfloor_resp_le. exact Hhi.
Qed.

Lemma floor_interp_upper (v1 v2 gpm1 gpm2 : Z) :
  gpm1 < gpm2 -> floor_interp v1 v2 (inject_Z gpm2) gpm1 gpm2 = Units v2.
Proof.
  intros Hlt. rewrite floor_interp_formula by exact Hlt.
  f_equal. rewrite Zlt_Qlt in Hlt.
  transitivity (Qfloor (inject_Z v2)); [|apply Qfloor_Z].
  apply Qfloor_comp. field. lra.
Qed.

Lemma floor_interp_lower (v1 v2 gpm1 gpm2 : Z) :
  gpm1 < gpm2 -> floor_interp v1 v2 (inject_Z gpm1) gpm1 gpm2 = Units v1.
Proof.
  intros Hlt. rewrite floor_interp_formula by exact Hlt.
  f_equal. rewrite Zlt_Qlt in Hlt.
  transitivity (Qfloor (inject_Z v1)); [|apply Qfloor_Z].
  apply Qfloor_comp. field. lra.
Qed.

(** Every entry of the table lies between 0 and 3620, every valve entry
    between 5 and 3620, every flow between 1 and 500. *)
Lemma fixture_data_ranges (i : nat) (r : row) :
  nth_error fixture_data i = Some r ->
  1 <= row_gpm r <= 500
  /\ 0 <= row_tank r <= 3620
  /\ forall a, row_valve r = Some a -> 5 <= a <= 3620.
Proof.
  intros H.
  assert (Hall : forallb (fun q =>
                   (1 <=? row_gpm q) && (row_gpm q <=? 500)
                   && (0 <=? row_tank q) && (row_tank q <=? 3620)
                   && match row_valve q with
                      | Some a => (5 <=? a) && (a <=? 3620)
                      | None => true
                      end) fixture_data = true) by reflexivity.
  rewrite forallb_forall in Hall.
  specialize (Hall r (nth_error_In _ _ H)).
  repeat (apply andb_true_iff in Hall; destruct Hall as [Hall ?]).
  repeat match goal with
         | Hb : (_ <=? _) = true |- _ => apply Z.leb_le in Hb
         end.
  split; [lia|]. split; [lia|].
  intros a Ha. rewrite Ha in *.
  match goal with
  | Hb : (_ && _) = true |- _ => apply andb_true_iff in Hb; destruct Hb as [Hb1 Hb2]
  end.
  apply Z.leb_le in Hb1, Hb2. lia.
Qed.

End InterpolationBounds.

Section InterpolationResults.

Import FixtureUnits.
Local Open Scope Z_scope.

(** X2.  For a flow in [1, 500], tank mode always returns a number, and
    it lies between 0 and 3620; valve mode returns a number exactly when
    the flow is above 22 GPM, and it lies between 5 and 3620. *)
Theorem numeric_results (gpm_input : Q) (flush_type : string) :
  (1 <= gpm_input)%Q -> (gpm_input <= 500)%Q ->
  (lower flush_type = "tank"%string ->
   exists n, interpolate_fixture_units gpm_input flush_type = Units n
             /\ 0 <= n <= 3620)
  /\ (lower flush_type = "valve"%string ->
      (22 < gpm_input)%Q ->
      exists n, interpolate_fixture_units gpm_input flush_type = Units n
                /\ 5 <= n <= 3620)
  /\ (lower flush_type = "valve"%string ->
      (exists n, interpolate_fixture_units gpm_input flush_type = Units n) ->
      (22 < gpm_input)%Q).
Proof.
  intros Hlo Hhi.
  destruct (in_range_selected gpm_input Hlo Hhi)
    as (i & r1 & r2 & ((Ha1 & Ha2) & Hbr & _) & Hlt & Hres).
  pose proof (brackets_true _ _ _ Hbr) as [Hb1 Hb2].
  destruct (fixture_data_ranges i r1 Ha1) as (_ & Ht1 & Hv1).
  destruct (fixture_data_ranges (S i) r2 Ha2) as (_ & Ht2 & Hv2).
  split; [|split].
  - intros Hmode. rewrite Hres, on_bracket_tank by exact Hmode.
    apply floor_interp_bounds; assumption.
  - intros Hmode H22. rewrite Hres, on_bracket_valve by exact Hmode.
    assert (Hi : (21 <= i)%nat).
    { destruct (Nat.lt_ge_cases i 21) as [Hc|]; [exfalso|assumption].
      pose proof (low_rows_flow i r2 Hc Ha2) as Hg.
      rewrite Zle_Qle in Hg.
      apply (Qlt_not_le _ _ H22). apply Qle_trans with (inject_Z (row_gpm r2)); assumption. }
    pose proof (high_rows_rated i r1 Hi Ha1) as Hr1.
    assert (Hr2 : row_valve r2 <> None).
    { apply (high_rows_rated (S i)); [lia|exact Ha2]. }
    destruct (row_valve r1) as [a|]; [|contradiction].
    destruct (row_valve r2) as [b|]; [|contradiction].
    apply floor_interp_bounds; try assumption.
    + apply Hv1. reflexivity.
    + apply Hv2. reflexivity.
  - intros Hmode [n Hn].
    apply Qnot_le_lt. intros H22.
    destruct (valve_low_flow gpm_input flush_type Hlo H22 Hmode)
      as (_ & _ & _ & _ & _ & Hmsg).
    rewrite Hmsg in Hn. discriminate.
Qed.

Lemma numeric_results_witness :
  (exists n, interpolate_fixture_units (561 # 10) "Tank" = Units n /\ 0 <= n <= 3620)
  /\ (exists n, interpolate_fixture_units (561 # 10) "Valve" = Units n /\ 5 <= n <= 3620).
Proof.
  assert (Hlo : (1 <= 561 # 10)%Q) by (unfold Qle; simpl; lia).
  assert (Hhi : (561 # 10 <= 500)%Q) by (unfold Qle; simpl; lia).
  split.
  - apply (proj1 (numeric_results (561 # 10) "Tank" Hlo Hhi)). reflexivity.
  - apply (proj1 (proj2 (numeric_results (561 # 10) "Valve" Hlo Hhi))).
    + reflexivity.
    + reflexivity.
Defined.

(** X3.  At the flow of any row (g, t, v) of the table, tank mode returns
    the stored t.  Valve mode returns the stored v, except at 22 GPM and
    on the rows without a valve entry, where it returns the next-size
    message. *)
Theorem breakpoints_reproduced (i : nat) (g t : Z) (v : option Z) (flush_type : string) :
  nth_error fixture_data i = Some (g, t, v) ->
  (lower flush_type = "tank"%string ->
   interpolate_fixture_units (inject_Z g) flush_type = Units t)
  /\ (lower flush_type = "valve"%string ->
      interpolate_fixture_units (inject_Z g) flush_type
      = match v with
        | Some a => if g =? 22 then Text next_size_msg else Units a
        | None => Text next_size_msg
        end).
Proof.
  intros Hrow.
  destruct (fixture_data_ranges i _ Hrow) as ((Hg1 & Hg2) & _ & _). cbn in Hg1, Hg2.
  assert (Hlo : (1 <= inject_Z g)%Q) by (change 1%Q with (inject_Z 1); rewrite <- Zle_Qle; lia).
  assert (Hhi : (inject_Z g <= 500)%Q)
    by (change 500%Q with (inject_Z 500); rewrite <- Zle_Qle; lia).
  destruct (in_range_selected _ Hlo Hhi) as (j & q1 & q2 & Hsel & Hlt & Hres).
  destruct i as [|k].
  - (* the first row: the loop stops at the first pair *)
    inversion Hrow; subst g t v.
    assert (Hsel0 : selected fixture_data (inject_Z 1) 0 (1, 0, None) (2, 1, None)).
    { split; [split; reflexivity|]. split; [reflexivity|]. intros j' ? ? Hj. lia. }
    destruct (selected_unique _ _ _ _ _ _ _ _ Hsel Hsel0) as (_ & -> & ->).
    split; intros Hmode; rewrite Hres.
    + rewrite on_bracket_tank by exact Hmode. apply floor_interp_lower. cbn. lia.
    + rewrite on_bracket_valve by exact Hmode. reflexivity.
  - (* a later row: the loop stops at the pair ending there *)
    assert (Hk : (k < 125)%nat).
    { assert (Hn : nth_error fixture_data (S k) <> None) by congruence.
      apply nth_error_Some in Hn. cbn in Hn. lia. }
    destruct (nth_error fixture_data k) as [rp|] eqn:Hp;
      [|apply nth_error_None in Hp; cbn in Hp; lia].
    pose proof (breakpoint_selected fixture_data k rp (g, t, v) fixture_data_flows
                  (conj Hp Hrow)) as Hselk.
    change (row_gpm (g, t, v)) with g in Hselk.
    destruct (selected_unique _ _ _ _ _ _ _ _ Hsel Hselk) as (_ & -> & ->).
    change (row_gpm (g, t, v)) with g in Hlt.
    split; intros Hmode; rewrite Hres.
    + rewrite on_bracket_tank by exact Hmode. apply floor_interp_upper. exact Hlt.
    + rewrite on_bracket_valve by exact Hmode.
      change (row_gpm (g, t, v)) with g. change (row_valve (g, t, v)) with v.
      destruct (Nat.lt_ge_cases k 21) as [Hlow|Hhigh].
      * (* the lower row is unrated *)
        rewrite (low_rows_unrated k rp Hlow Hp).
        destruct v as [a|]; [|reflexivity].
        assert (Hg : g <= 22) by exact (low_rows_flow k (g, t, Some a) Hlow Hrow).
        destruct (Z.eqb_spec g 22) as [_|Hne]; [reflexivity|exfalso].
        destruct (Nat.eq_dec k 20) as [->|Hk20].
        -- inversion Hrow. lia.
        -- assert (Hun : row_valve (g, t, Some a) = None).
           { apply (low_rows_unrated (S k)); [lia|exact Hrow]. }
           discriminate.
      * (* both rows are rated and the flow is above 22 *)
        pose proof (high_rows_rated k rp Hhigh Hp) as Hr1.
        assert (Hr2 : row_valve (g, t, v) <> None).
        { apply (high_rows_rated (S k)); [lia|exact Hrow]. }
        change (row_valve (g, t, v)) with v in Hr2.
        destruct (row_valve rp) as [a|]; [|contradiction].
        destruct v as [b|]; [|contradiction].
        assert (Hg : 22 < g).
        { destruct (Nat.eq_dec k 21) as [->|Hk21].
          - inversion Hrow. lia.
          - apply (flows_increasing_lt fixture_data fixture_data_flows (k - 21) 21%nat
                     (22, 34, Some 5) (g, t, Some b)); [reflexivity|].
            replace (21 + S (k - 21))%nat with (S k) by lia. exact Hrow. }
        destruct (Z.eqb_spec g 22) as [Hc|_]; [lia|].
        apply floor_interp_upper. exact Hlt.
Qed.

Lemma breakpoints_reproduced_witness :
  interpolate_fixture_units (inject_Z 280) "Tank" = Units 2583
  /\ interpolate_fixture_units (inject_Z 100) "VALVE" = Units 245.
Proof.
  split.
  - apply (proj1 (breakpoints_reproduced 106 280 2583 (Some 2583) "Tank" eq_refl)).
    reflexivity.
  - apply (proj2 (breakpoints_reproduced 79 100 380 (Some 245) "VALVE" eq_refl)).
    reflexivity.
Defined.

End InterpolationResults.

Section InterpolationMonotone.

Import FixtureUnits.
Import Lqa.
Local Open Scope Z_scope.

Lemma flows_increasing_le (rows : list row) :
  flows_strictly_increasing rows ->
  forall a b ra rb,
    (a <= b)%nat ->
    nth_error rows a = Some ra -> nth_error rows b = Some rb ->
    row_gpm ra <= row_gpm rb.
Proof.
  intros Hinc a b ra rb Hab Ha Hb.
  destruct (Nat.eq_dec a b) as [->|Hne].
  - rewrite Ha in Hb. inversion Hb. lia.
  - apply Z.lt_le_incl.
    apply (flows_increasing_lt rows Hinc (b - a - 1) a ra rb Ha).
    replace (a + S (b - a - 1))%nat with b by lia. exact Hb.
Qed.

(** A larger flow stops the loop at the same pair or at a later one. *)
Lemma selected_index_mono (rows : list row) (gpm gpm' : Q) i r1 r2 i' r1' r2' :
  flows_strictly_increasing rows ->
  selected rows gpm i r1 r2 -> selected rows gpm' i' r1' r2' ->
  (gpm <= gpm')%Q -> (i <= i')%nat.
Proof.
  intros Hinc ((Ha1 & Ha2) & Hbr & Hmin) ((Hb1 & Hb2) & Hbr' & _) Hle.
  destruct (Nat.le_gt_cases i i') as [|Hgt]; [assumption|exfalso].
  apply brackets_true in Hbr. destruct Hbr as [Hlo _].
  pose proof (brackets_true _ _ _ Hbr') as [Hlo' Hhi'].
  pose proof (flows_increasing_le rows Hinc (S i') i r2' r1 ltac:(lia) Hb2 Ha1) as Hg.
  rewrite Zle_Qle in Hg.
  assert (Hbk : brackets gpm r1' r2' = true).
  { unfold brackets. apply andb_true_iff. split; apply Qle_bool_iff; lra. }
  rewrite (Hmin i' r1' r2' Hgt (conj Hb1 Hb2)) in Hbk. discriminate.
Qed.

Lemma values_between (rows : list row) (val : row -> Z) (A B : nat) :
  (forall j q1 q2, (A <= j < B)%nat -> adjacent rows j q1 q2 -> val q1 <= val q2) ->
  forall d a ra rb,
    (A <= a)%nat -> (a + d <= B)%nat ->
    nth_error rows a = Some ra -> nth_error rows (a + d) = Some rb ->
    val ra <= val rb.
Proof.
  intros Hmono. induction d as [|d IH]; intros a ra rb HA HB Ha Hb.
  - rewrite Nat.add_0_r in Hb. rewrite Ha in Hb. inversion Hb. lia.
  - destruct (nth_error rows (a + d)) as [rm|] eqn:Hm.
    + apply Z.le_trans with (val rm).
      * apply (IH a); [assumption|lia|assumption|assumption].
      * apply (Hmono (a + d)%nat); [lia|].
        split; [exact Hm|]. rewrite <- Nat.add_succ_r. exact Hb.
    + apply nth_error_None in Hm.
      assert (Hn : nth_error rows (a + S d) <> None) by congruence.
      apply nth_error_Some in Hn. lia.
Qed.

(** On one segment with non-decreasing ends the floored value does not
    decrease with the flow. *)
Lemma floor_interp_mono (v1 v2 : Z) (gpm gpm' : Q) (gpm1 gpm2 n n' : Z) :
  gpm1 < gpm2 -> v1 <= v2 -> (gpm <= gpm')%Q ->
  floor_interp v1 v2 gpm gpm1 gpm2 = Units n ->
  floor_interp v1 v2 gpm' gpm1 gpm2 = Units n' ->
  n <= n'.
Proof.
  intros Hlt Hv Hle. rewrite !floor_interp_formula by exact Hlt.
  intros H H'.
  match type of H with Units ?a = _ => assert (Hn : a = n) by congruence end.
  match type of H' with Units ?a = _ => assert (Hn' : a = n') by congruence end.
  rewrite <- Hn, <- Hn'. clear H H' Hn Hn'.
  apply Qfloor_resp_le.
  rewrite Zlt_Qlt in Hlt. rewrite Zle_Qle in Hv.
  apply Qplus_le_r.
  apply Qle_shift_div_l; [lra|].
  assert (E : ((inject_Z v2 - inject_Z v1) * (gpm - inject_Z gpm1)
               / (inject_Z gpm2 - inject_Z gpm1) * (inject_Z gpm2 - inject_Z gpm1)
               == (inject_Z v2 - inject_Z v1) * (gpm - inject_Z gpm1))%Q).
  { field. lra. }
  rewrite E. nra.
Qed.

(** Within a run of pairs whose values do not decrease, the floored
    interpolation does not decrease with the flow. *)
Lemma region_monotone (rows : list row) (val : row -> Z) (A B : nat)
    (gpm gpm' : Q) i r1 r2 i' r1' r2' (n n' : Z) :
  flows_strictly_increasing rows ->
  (forall j q1 q2, (A <= j < B)%nat -> adjacent rows j q1 q2 -> val q1 <= val q2) ->
  selected rows gpm i r1 r2 -> selected rows gpm' i' r1' r2' ->
  (A <= i)%nat -> (i' < B)%nat -> (gpm <= gpm')%Q ->
  floor_interp (val r1) (val r2) gpm (row_gpm r1) (row_gpm r2) = Units n ->
  floor_interp (val r1') (val r2') gpm' (row_gpm r1') (row_gpm r2') = Units n' ->
  n <= n'.
Proof.
  intros Hinc Hmono Hsel Hsel' HA HB Hle Hn Hn'.
  pose proof (selected_index_mono rows gpm gpm' _ _ _ _ _ _ Hinc Hsel Hsel' Hle) as Hii.
  destruct Hsel as (Hadj & Hbr & _). destruct Hsel' as (Hadj' & Hbr' & _).
  pose proof (violations_nil_adjacent flow_lt rows i r1 r2 Hinc Hadj) as Hlt.
  pose proof (violations_nil_adjacent flow_lt rows i' r1' r2' Hinc Hadj') as Hlt'.
  apply Z.ltb_lt in Hlt, Hlt'.
  apply brackets_true in Hbr, Hbr'.
  pose proof (Hmono i r1 r2 ltac:(lia) Hadj) as Hv.
  pose proof (Hmono i' r1' r2' ltac:(lia) Hadj') as Hv'.
  destruct (Nat.eq_dec i i') as [E|Hne].
  - subst i'. destruct Hadj as [H1 H2], Hadj' as [H1' H2'].
    rewrite H1 in H1'. rewrite H2 in H2'. inversion H1'; inversion H2'; subst.
    exact (floor_interp_mono _ _ _ _ _ _ _ _ Hlt Hv Hle Hn Hn').
  - destruct (floor_interp_bounds (val r1) (val r2) (val r1) (val r2) gpm
                (row_gpm r1) (row_gpm r2) Hlt (proj1 Hbr) (proj2 Hbr))
      as (m & Hm & _ & Hup); [lia|lia|].
    destruct (floor_interp_bounds (val r1') (val r2') (val r1') (val r2') gpm'
                (row_gpm r1') (row_gpm r2') Hlt' (proj1 Hbr') (proj2 Hbr'))
      as (m' & Hm' & Hdown & _); [lia|lia|].
    rewrite Hn in Hm. rewrite Hn' in Hm'. inversion Hm; inversion Hm'; subst m m'.
    assert (Hmid : val r2 <= val r1').
    { apply (values_between rows val A B Hmono (i' - S i) (S i) r2 r1'); try lia.
      - exact (proj2 Hadj).
      - replace (S i + (i' - S i))%nat with i' by lia. exact (proj1 Hadj'). }
    lia.
Qed.

End InterpolationMonotone.

Section TableMonotone.

Import FixtureUnits.
Import Lqa.
Local Open Scope Z_scope.

Lemma violations_complete (P : row -> row -> bool) :
  forall rows j q1 q2,
    adjacent rows j q1 q2 -> P q1 q2 = false -> In (q1, q2) (violations P rows).
Proof.
  induction rows as [|p1 rest IH]; intros j q1 q2 [H1 H2] HP.
  - destruct j; discriminate.
  - destruct rest as [|p2 rest'].
    + destruct j; cbn in H2; [discriminate|destruct j; discriminate].
    + change (violations P (p1 :: p2 :: rest'))
        with (if P p1 p2 then violations P (p2 :: rest')
              else (p1, p2) :: violations P (p2 :: rest')).
      destruct j as [|j].
      * cbn in H1, H2. inversion H1; inversion H2; subst.
        rewrite HP. left. reflexivity.
      * assert (Hin : In (q1, q2) (violations P (p2 :: rest'))).
        { apply (IH j); [split; assumption|exact HP]. }
        destruct (P p1 p2); [exact Hin|right; exact Hin].
Qed.

Lemma flows_index_unique (rows : list row) (a b : nat) (ra rb : row) :
  flows_strictly_increasing rows ->
  nth_error rows a = Some ra -> nth_error rows b = Some rb ->
  row_gpm ra = row_gpm rb -> a = b.
Proof.
  intros Hinc Ha Hb Hg.
  destruct (Nat.lt_trichotomy a b) as [Hlt|[E|Hlt]]; [exfalso|exact E|exfalso].
  - pose proof (flows_increasing_lt rows Hinc (b - a - 1) a ra rb Ha) as H.
    replace (a + S (b - a - 1))%nat with b in H by lia. specialize (H Hb). lia.
  - pose proof (flows_increasing_lt rows Hinc (a - b - 1) b rb ra Hb) as H.
    replace (b + S (a - b - 1))%nat with a in H by lia. specialize (H Ha). lia.
Qed.

(** Apart from the pair starting at 280 GPM, the tank column does not
    decrease from a row to the next, nor does the valve column where it
    is defined. *)
Lemma pairs_monotone (j : nat) (q1 q2 : row) :
  j <> 106%nat -> adjacent fixture_data j q1 q2 ->
  tank_le q1 q2 = true /\ valve_le q1 q2 = true.
Proof.
  intros Hj Hadj.
  assert (Hone : forall P, violations P fixture_data
                           = [((280, 2583, Some 2583), (290, 1668, Some 1668))] ->
                           P q1 q2 = true).
  { intros P HP. destruct (P q1 q2) eqn:E; [reflexivity|exfalso].
    pose proof (violations_complete P fixture_data j q1 q2 Hadj E) as Hin.
    rewrite HP in Hin. destruct Hin as [Hin|[]]. inversion Hin; subst q1 q2.
    apply Hj.
    apply (flows_index_unique fixture_data j 106 (280, 2583, Some 2583)
             (280, 2583, Some 2583) fixture_data_flows (proj1 Hadj)); reflexivity. }
  split; apply Hone; reflexivity.
Qed.

Lemma selected_index_below (gpm_input : Q) (k : nat) (rk : row) i r1 r2 :
  (1 <= gpm_input)%Q -> (1 <= k)%nat ->
  nth_error fixture_data k = Some rk ->
  (gpm_input <= inject_Z (row_gpm rk))%Q ->
  selected fixture_data gpm_input i r1 r2 ->
  (i < k)%nat.
Proof.
  intros Hlo Hk Hrk Hhi Hsel.
  destruct (first_bracket_before gpm_input (tl fixture_data) (1, 0, None)
              k rk 0%nat) as (d & q1 & q2 & Hd & Hfb);
    [exact Hrk|exact Hk|exact Hlo|exact Hhi|].
  change ((1, 0, None) :: tl fixture_data) with fixture_data in Hfb.
  destruct (first_bracket_selected _ _ _ _ _ _ Hfb) as (d' & Hdd & Hsel').
  destruct (selected_unique _ _ _ _ _ _ _ _ Hsel Hsel') as (-> & _ & _).
  cbn in Hdd. lia.
Qed.

Lemma selected_index_above (gpm_input : Q) (k : nat) (rk : row) i r1 r2 :
  nth_error fixture_data k = Some rk ->
  (inject_Z (row_gpm rk) < gpm_input)%Q ->
  selected fixture_data gpm_input i r1 r2 ->
  (k <= i)%nat.
Proof.
  intros Hrk Hgt ((_ & Ha2) & Hbr & _).
  destruct (Nat.le_gt_cases k i) as [|Hlt]; [assumption|exfalso].
  apply brackets_true in Hbr. destruct Hbr as [_ Hup].
  pose proof (flows_increasing_le fixture_data fixture_data_flows (S i) k r2 rk
                ltac:(lia) Ha2 Hrk) as Hg.
  rewrite Zle_Qle in Hg. lra.
Qed.

(** X4.  More flow never gives fewer fixture units, as long as the two
    flows are both at most 280 GPM or both above 290 GPM: there, in tank
    mode and in valve mode, the numeric result does not decrease with the
    flow.  (Across the 280 GPM row it does: 2583 at 280 GPM, 1668 at 290
    GPM.) *)
Theorem interpolation_monotone (gpm gpm' : Q) (flush_type : string) (n n' : Z) :
  (gpm <= gpm')%Q ->
  ((1 <= gpm)%Q /\ (gpm' <= 280)%Q) \/ ((290 < gpm)%Q /\ (gpm' <= 500)%Q) ->
  lower flush_type = "tank"%string \/ lower flush_type = "valve"%string ->
  interpolate_fixture_units gpm flush_type = Units n ->
  interpolate_fixture_units gpm' flush_type = Units n' ->
  n <= n'.
Proof.
  intros Hle Hregion Hmode Hn Hn'.
  assert (Hr : (1 <= gpm)%Q /\ (gpm' <= 500)%Q).
  { destruct Hregion as [[? ?]|[? ?]]; split; lra. }
  destruct Hr as [Hlo Hhi'].
  assert (Hhi : (gpm <= 500)%Q) by lra.
  assert (Hlo' : (1 <= gpm')%Q) by lra.
  destruct (in_range_selected gpm Hlo Hhi) as (i & r1 & r2 & Hsel & _ & Hres).
  destruct (in_range_selected gpm' Hlo' Hhi') as (i' & r1' & r2' & Hsel' & _ & Hres').
  rewrite Hres in Hn. rewrite Hres' in Hn'.
  (* the two pairs lie in one monotone run of the table *)
  assert (Hrun : exists A B, (A <= i)%nat /\ (i' < B)%nat
                             /\ ((B <= 106)%nat \/ (107 <= A)%nat)).
  { destruct Hregion as [[_ H280]|[H290 _]].
    - exists 0%nat, 106%nat. split; [lia|]. split; [|left; lia].
      apply (selected_index_below gpm' 106 (280, 2583, Some 2583) i' r1' r2');
        [exact Hlo'|lia|reflexivity|exact H280|exact Hsel'].
    - exists 107%nat, 124%nat. split; [|split; [|right; lia]].
      + apply (selected_index_above gpm 107 (290, 1668, Some 1668) i r1 r2);
          [reflexivity|exact H290|exact Hsel].
      + destruct Hsel' as ((_ & Ha2') & _).
        assert (Hsome : nth_error fixture_data (S i') <> None) by congruence.
        apply nth_error_Some in Hsome. cbn in Hsome. lia. }
  destruct Hrun as (A & B & HA & HB & HAB).
  destruct Hmode as [Hmode|Hmode].
  - rewrite on_bracket_tank in Hn, Hn' by exact Hmode.
    apply (region_monotone fixture_data row_tank A B gpm gpm' i r1 r2 i' r1' r2');
      try assumption; [exact fixture_data_flows|].
    intros j q1 q2 Hj Hadj.
    apply Z.leb_le. apply (pairs_monotone j q1 q2); [lia|exact Hadj].
  - rewrite on_bracket_valve in Hn, Hn' by exact Hmode.
    set (val := fun r : row => match row_valve r with Some a => a | None => 0 end).
    assert (Hshape : forall q1 q2 x m,
               match row_valve q1, row_valve q2 with
               | Some a, Some b => floor_interp a b x (row_gpm q1) (row_gpm q2)
               | Some a, None => Units a
               | None, _ => Text next_size_msg
               end = Units m ->
               row_valve q2 <> None ->
               floor_interp (val q1) (val q2) x (row_gpm q1) (row_gpm q2) = Units m).
    { intros q1 q2 x m H Hq2. unfold val.
      destruct (row_valve q1) as [a|]; [|discriminate].
      destruct (row_valve q2) as [b|]; [exact H|contradiction]. }
    assert (Hrated : forall j q1 q2, selected fixture_data gpm j q1 q2 ->
                                     (22 < gpm)%Q -> (21 <= j)%nat).
    { intros j q1 q2 Hs H22.
      apply (selected_index_above gpm 21 (22, 34, Some 5) j q1 q2);
        [reflexivity|exact H22|exact Hs]. }
    assert (H22 : (22 < gpm)%Q).
    { apply Qnot_le_lt. intros Hc.
      destruct (valve_low_flow gpm flush_type Hlo Hc Hmode)
        as (j & q1 & q2 & Hs & Hv & _).
      destruct (selected_unique _ _ _ _ _ _ _ _ Hsel Hs) as (_ & -> & _).
      rewrite Hv in Hn. discriminate. }
    pose proof (Hrated i r1 r2 Hsel H22) as Hi21.
    pose proof (selected_index_mono fixture_data gpm gpm' _ _ _ _ _ _
                  fixture_data_flows Hsel Hsel' Hle) as Hii.
    apply (region_monotone fixture_data val (Nat.max A 21) B gpm gpm' i r1 r2 i' r1' r2');
      try assumption; try lia; [exact fixture_data_flows| | |].
    + intros j q1 q2 Hj Hadj.
      destruct (pairs_monotone j q1 q2 ltac:(lia) Hadj) as [_ Hv].
      unfold valve_le in Hv. unfold val.
      pose proof (high_rows_rated j q1 ltac:(lia) (proj1 Hadj)) as Hq1.
      pose proof (high_rows_rated (S j) q2 ltac:(lia) (proj2 Hadj)) as Hq2.
      destruct (row_valve q1) as [a|]; [|contradiction].
      destruct (row_valve q2) as [b|]; [|contradiction].
      apply Z.leb_le. exact Hv.
    + apply Hshape; [exact Hn|].
      apply (high_rows_rated (S i)); [lia|exact (proj2 (proj1 Hsel))].
    + apply Hshape; [exact Hn'|].
      apply (high_rows_rated (S i')); [lia|exact (proj2 (proj1 Hsel'))].
Qed.

Lemma interpolation_monotone_witness :
  (1 # 1 <= 1735 # 10)%Q
  /\ interpolate_fixture_units (1735 # 10) "tank" = Units 769
  /\ interpolate_fixture_units (2011 # 10) "tank" = Units 953
  /\ 769 <= 953.
Proof.
  split; [unfold Qle; simpl; lia|]. split; [reflexivity|]. split; [reflexivity|].
  apply (interpolation_monotone (1735 # 10) (2011 # 10) "tank" 769 953).
  - unfold Qle; simpl; lia.
  - left. split; unfold Qle; simpl; lia.
  - left. reflexivity.
  - reflexivity.
  - reflexivity.
Defined.

End TableMonotone.

(* ===================================================================== *)
(** * Further properties of the solver stack *)
(* ===================================================================== *)

Section FrictionFactor.

Import FluidDynamics.
Local Open Scope R_scope.

Lemma ln_le_compat (x y : R) : 0 < x -> x <= y -> ln x <= ln y.
Proof.
  intros Hx [Hlt| ->]; [|lra].
  apply Rlt_le. apply ln_increasing; assumption.
Qed.

Lemma inv_le_inv (x y : R) : 0 < x -> 0 < y -> / x <= / y -> y <= x.
Proof.
  intros Hx Hy H. destruct (Rle_lt_dec y x) as [|Hlt]; [assumption|exfalso].
  apply (Rinv_lt_contravar x y) in Hlt; [lra|].
  apply Rmult_lt_0_compat; assumption.
Qed.

(** Along the Colebrook-White roots, [sqrt f] does not grow with the
    Reynolds number. *)
Lemma colebrook_root_reynolds (a re1 re2 s1 s2 : R) :
  0 < re2 -> re2 <= re1 ->
  colebrook_root a re1 s1 -> colebrook_root a re2 s2 ->
  s1 <= s2.
Proof.
  intros Hre2 Hle Hr1 Hr2.
  pose proof (colebrook_root_monotone a re1 re2 s1 s2 Hre2 Hle Hr1 Hr2) as Hw.
  destruct Hr1 as (Hs1 & Harg1 & He1). destruct Hr2 as (Hs2 & Harg2 & He2).
  assert (Hw2 : 0 < re2 * s2) by (apply Rmult_lt_0_compat; lra).
  assert (Hinv : / (re1 * s1) <= / (re2 * s2)).
  { apply Rinv_le_contravar; assumption. }
  assert (Hargs : a + 2.51 / (re1 * s1) <= a + 2.51 / (re2 * s2)).
  { unfold Rdiv. apply Rplus_le_compat_l. apply Rmult_le_compat_l; lra. }
  pose proof (ln_le_compat _ _ Harg1 Hargs) as Hln.
  pose proof ln_10_pos as H10.
  assert (Hq : ln (a + 2.51 / (re1 * s1)) / ln 10 <= ln (a + 2.51 / (re2 * s2)) / ln 10).
  { unfold Rdiv. apply Rmult_le_compat_r; [|assumption].
    apply Rlt_le. apply Rinv_0_lt_compat. assumption. }
  apply inv_le_inv; [assumption|assumption|]. unfold Rdiv in He1, He2. lra.
Qed.

(** A larger relative roughness gives a larger [sqrt f]. *)
Lemma colebrook_root_roughness (a1 a2 re s1 s2 : R) :
  0 < re -> a1 <= a2 ->
  colebrook_root a1 re s1 -> colebrook_root a2 re s2 ->
  s1 <= s2.
Proof.
  intros Hre Ha (Hs1 & Harg1 & He1) (Hs2 & Harg2 & He2).
  destruct (Rle_lt_dec s1 s2) as [|Hlt]; [assumption|exfalso].
  assert (Hw1 : 0 < re * s1) by (apply Rmult_lt_0_compat; lra).
  assert (Hw2 : 0 < re * s2) by (apply Rmult_lt_0_compat; lra).
  assert (Hw : re * s2 < re * s1) by (apply Rmult_lt_compat_l; assumption).
  assert (Hinv : / (re * s1) < / (re * s2)).
  { apply Rinv_lt_contravar; [apply Rmult_lt_0_compat; assumption|assumption]. }
  assert (Hargs : a1 + 2.51 / (re * s1) < a2 + 2.51 / (re * s2)).
  { unfold Rdiv. apply Rplus_le_lt_compat; [assumption|].
    apply Rmult_lt_compat_l; lra. }
  pose proof (ln_increasing _ _ Harg1 Hargs) as Hln.
  pose proof ln_10_pos as H10.
  assert (Hq : ln (a1 + 2.51 / (re * s1)) / ln 10 < ln (a2 + 2.51 / (re * s2)) / ln 10).
  { unfold Rdiv. apply Rmult_lt_compat_r; [apply Rinv_0_lt_compat; assumption|assumption]. }
  assert (Hy : / s2 < / s1) by (unfold Rdiv in He1, He2; lra).
  apply inv_lt_inv in Hy; [lra|assumption|assumption].
Qed.

Lemma square_le (s1 s2 : R) : 0 < s1 -> s1 <= s2 -> s1 * s1 <= s2 * s2.
Proof. intros. apply Rmult_le_compat; lra. Qed.

Variable hybr : (R -> py R) -> R -> R * Z.
Hypothesis hybr_exact : exact_on_convergence hybr.

(** A converged turbulent solve hands back the square of a root. *)
Lemma converged_friction_root (k : operand) (re epsilon diam_inch guess f : R) :
  diam_inch <> 0 -> 2000 <= re ->
  snd (hybr (colebrook_white epsilon (diam_inch / 12.0) re) guess) = 1%Z ->
  friction_factor_solver hybr k re epsilon diam_inch guess = Ret f ->
  colebrook_root (epsilon / (3.7 * (diam_inch / 12.0))) re (sqrt f)
  /\ f = sqrt f * sqrt f.
Proof.
  intros Hd Hre Hconv Hf. unfold friction_factor_solver in Hf.
  destruct (Rlt_dec re 2000) as [Hc|_]; [lra|].
  rewrite fsolve_no_raise in Hf by (intros e; apply colebrook_white_no_raise; lra).
  injection Hf as Hf. apply hybr_exact in Hconv. rewrite Hf in Hconv.
  apply colebrook_white_root in Hconv; [exact Hconv|lra].
Qed.

End FrictionFactor.

Section SolverStackResults.

Import FluidDynamics.
Local Open Scope R_scope.





End SolverStackResults.

Section ConvergedFrictionFactor.

Import FluidDynamics.
Local Open Scope R_scope.

(** A point where the callback vanishes: with D = 1 ft, Re = 5020 and a
    roughness of 0.3663 ft, f = 0.25 is a root, since
    1 / 0.5 + 2 log10 (0.099 + 0.001) = 2 - 2. *)
Lemma colebrook_white_sample_root :
  colebrook_white 0.3663 (12 / 12.0) 5020 0.25 = Ret 0.
Proof.
  assert (Hsqrt : sqrt 0.25 = 0.5).
  { replace 0.25 with (0.5 * 0.5) by lra. apply sqrt_square. lra. }
  unfold colebrook_white.
  rewrite truediv_nonzero by lra. cbn [bind].
  unfold np_sqrt. destruct (Rlt_dec 0.25 0) as [Hc|_]; [lra|]. cbn [bind].
  rewrite Hsqrt.
  rewrite truediv_nonzero by lra. cbn [bind].
  rewrite truediv_nonzero by lra. cbn [bind].
  unfold np_log10.
  destruct (Rlt_dec 0 (0.3663 / (3.7 * (12 / 12.0)) + 2.51 / (5020 * 0.5))) as [_|Hc];
    [|exfalso; apply Hc; lra].
  cbn [bind]. apply f_equal.
  replace (0.3663 / (3.7 * (12 / 12.0)) + 2.51 / (5020 * 0.5)) with (/ 10) by lra.
  rewrite ln_Rinv by lra.
  pose proof ln_10_pos as H10.
  replace (1.0 / 0.5) with 2 by lra. replace 2.0 with 2 by lra.
  field. lra.
Qed.

Lemma sample_solve_converged :
  snd (no_budget_hybr (colebrook_white 0.3663 (12 / 12.0) 5020) 0.25) = 1%Z
  /\ forall k, friction_factor_solver no_budget_hybr k 5020 0.3663 12 0.25 = Ret 0.25.
Proof.
  split.
  - unfold no_budget_hybr. rewrite colebrook_white_sample_root.
    destruct (Req_EM_T 0 0) as [_|Hc]; [reflexivity|contradiction].
  - intros k. unfold friction_factor_solver.
    destruct (Rlt_dec 5020 2000) as [Hc|_]; [lra|].
    rewrite fsolve_no_raise by (intros e; apply colebrook_white_no_raise; lra).
    rewrite no_budget_hybr_iterate. reflexivity.
Qed.





End ConvergedFrictionFactor.

(* ===================================================================== *)
(** * Properties of the caller, [calculate] *)
(* ===================================================================== *)

Section RealInterpolation.

Import FixtureUnits FluidDynamics PipeFlowCalcs.
Local Open Scope R_scope.

Lemma Q2R_inject_Z (z : Z) : Q2R (inject_Z z) = IZR z.
Proof. unfold Q2R. cbn. rewrite Rinv_1. ring. Qed.

Lemma Zfloor_Q2R (x : Q) : Zfloor (Q2R x) = Qfloor x.
Proof.
  apply Zfloor_eq. split.
  - rewrite <- Q2R_inject_Z. apply Qreals.Qle_Rle. apply Qfloor_le.
  - rewrite <- plus_IZR, <- Q2R_inject_Z. apply Qreals.Qlt_Rlt. apply Qlt_floor.
Qed.

Lemma brackets_real_Q2R (q : Q) (r1 r2 : row) :
  brackets_real (Q2R q) r1 r2 = brackets q r1 r2.
Proof.
  unfold brackets_real, brackets. f_equal.
  - destruct (Rle_dec (IZR (row_gpm r1)) (Q2R q)) as [H|H];
      destruct (Qle_bool (inject_Z (row_gpm r1)) q) eqn:E; try reflexivity.
    + exfalso. rewrite <- Q2R_inject_Z in H. apply Qreals.Rle_Qle in H.
      apply Qle_bool_iff in H. congruence.
    + exfalso. apply H. rewrite <- Q2R_inject_Z. apply Qreals.Qle_Rle.
      apply Qle_bool_iff. exact E.
  - destruct (Rle_dec (Q2R q) (IZR (row_gpm r2))) as [H|H];
      destruct (Qle_bool q (inject_Z (row_gpm r2))) eqn:E; try reflexivity.
    + exfalso. rewrite <- Q2R_inject_Z in H. apply Qreals.Rle_Qle in H.
      apply Qle_bool_iff in H. congruence.
    + exfalso. apply H. rewrite <- Q2R_inject_Z. apply Qreals.Qle_Rle.
      apply Qle_bool_iff. exact E.
Qed.

Lemma floor_interp_real_Q2R (v1 v2 : Z) (q : Q) (gpm1 gpm2 : Z) :
  floor_interp_real v1 v2 (Q2R q) gpm1 gpm2 = floor_interp v1 v2 q gpm1 gpm2.
Proof.
  unfold floor_interp_real, floor_interp.
  destruct (Z.eqb_spec (gpm2 - gpm1) 0) as [|Hne]; [reflexivity|].
  f_equal. rewrite <- Zfloor_Q2R. f_equal.
  rewrite Qreals.Q2R_plus, Qreals.Q2R_div, Qreals.Q2R_mult, Qreals.Q2R_minus.
  - rewrite !Q2R_inject_Z. reflexivity.
  - intros Hc. apply Hne. unfold Qeq in Hc. cbn in Hc. lia.
Qed.

Lemma on_bracket_real_Q2R (r1 r2 : row) (q : Q) (flush_type : string) :
  on_bracket_real r1 r2 (Q2R q) flush_type = on_bracket r1 r2 q flush_type.
Proof.
  destruct r1 as [[g1 t1] v1], r2 as [[g2 t2] v2].
  unfold on_bracket_real, on_bracket.
  destruct v1, v2; rewrite ?floor_interp_real_Q2R; reflexivity.
Qed.

Lemma scan_real_Q2R (rows : list row) (q : Q) (flush_type : string) :
  scan_real rows (Q2R q) flush_type = scan rows q flush_type.
Proof.
  induction rows as [|r1 rest IH]; [reflexivity|].
  destruct rest as [|r2 rest']; [reflexivity|].
  rewrite scan_step.
  change (scan_real (r1 :: r2 :: rest') (Q2R q) flush_type)
    with (if brackets_real (Q2R q) r1 r2
          then on_bracket_real r1 r2 (Q2R q) flush_type
          else scan_real (r2 :: rest') (Q2R q) flush_type).
  rewrite brackets_real_Q2R, on_bracket_real_Q2R, IH. reflexivity.
Qed.

(** The reading over the reals agrees with [interpolate_fixture_units] on
    every rational flow. *)
Lemma interpolate_fixture_units_real_Q2R (q : Q) (flush_type : string) :
  interpolate_fixture_units_real (Q2R q) flush_type
  = interpolate_fixture_units q flush_type.
Proof.
  unfold interpolate_fixture_units_real, interpolate_fixture_units.
  generalize fixture_data. intros table.
  destruct table as [|first rest]; [reflexivity|].
  unfold interpolate_on_real, interpolate_on.
  destruct (Rlt_dec (Q2R q) (IZR (row_gpm first))) as [H|H];
    destruct (Qlt_le_dec q (inject_Z (row_gpm first))) as [E|E]; try reflexivity.
  - exfalso. apply Qreals.Qle_Rle in E. rewrite Q2R_inject_Z in E. lra.
  - exfalso. apply H. rewrite <- Q2R_inject_Z. apply Qreals.Qlt_Rlt. exact E.
  - destruct (Rlt_dec (IZR (row_gpm (last (first :: rest) first))) (Q2R q)) as [H'|H'];
      destruct (Qlt_le_dec (inject_Z (row_gpm (last (first :: rest) first))) q)
        as [E'|E']; try reflexivity.
    + exfalso. apply Qreals.Qle_Rle in E'. rewrite Q2R_inject_Z in E'. lra.
    + exfalso. apply H'. rewrite <- Q2R_inject_Z. apply Qreals.Qlt_Rlt. exact E'.
    + apply scan_real_Q2R.
Qed.

End RealInterpolation.

Section ComputedFlow.

Import FixtureUnits FluidDynamics PipeFlowCalcs.
Local Open Scope R_scope.

Lemma scan_real_step (r1 r2 : row) (rest : list row) (gpm_input : R) (flush_type : string) :
  scan_real (r1 :: r2 :: rest) gpm_input flush_type =
  if brackets_real gpm_input r1 r2 then on_bracket_real r1 r2 gpm_input flush_type
  else scan_real (r2 :: rest) gpm_input flush_type.
Proof. reflexivity. Qed.

Lemma violations_cons_nil (P : row -> row -> bool) (r1 r2 : row) (rest : list row) :
  violations P (r1 :: r2 :: rest) = [] ->
  P r1 r2 = true /\ violations P (r2 :: rest) = [].
Proof.
  change (violations P (r1 :: r2 :: rest))
    with (if P r1 r2 then violations P (r2 :: rest)
          else (r1, r2) :: violations P (r2 :: rest)).
  destruct (P r1 r2); [intros H; split; [reflexivity|exact H]|discriminate].
Qed.

(** With strictly increasing flows, a scan started at or above the first
    flow and at or below the last ends in the body run on a pair of
    distinct flows. *)
Lemma scan_real_found (gpm_input : R) (flush_type : string) :
  forall rows r0,
    flows_strictly_increasing (r0 :: rows) ->
    IZR (row_gpm r0) <= gpm_input ->
    gpm_input <= IZR (row_gpm (last rows r0)) ->
    rows <> [] ->
    exists r1 r2,
      scan_real (r0 :: rows) gpm_input flush_type
      = on_bracket_real r1 r2 gpm_input flush_type
      /\ (row_gpm r1 < row_gpm r2)%Z.
Proof.
  induction rows as [|r1 rest IH]; intros r0 Hinc Hlo Hhi Hne; [contradiction|].
  apply violations_cons_nil in Hinc. destruct Hinc as [Hlt Hinc].
  apply Z.ltb_lt in Hlt.
  rewrite scan_real_step. unfold brackets_real.
  destruct (Rle_dec (IZR (row_gpm r0)) gpm_input) as [_|Hc]; [|contradiction].
  destruct (Rle_dec gpm_input (IZR (row_gpm r1))) as [Hle|Hgt].
  - exists r0, r1. split; [reflexivity|exact Hlt].
  - cbn [andb].
    rewrite last_cons_default in Hhi.
    destruct rest as [|r2 rest'].
    + cbn in Hhi. contradiction.
    + apply IH; [exact Hinc|lra|exact Hhi|discriminate].
Qed.

Lemma floor_interp_real_units (v1 v2 : Z) (gpm_input : R) (gpm1 gpm2 : Z) :
  (gpm1 < gpm2)%Z -> exists n, floor_interp_real v1 v2 gpm_input gpm1 gpm2 = Units n.
Proof.
  intros Hlt. unfold floor_interp_real.
  destruct (Z.eqb_spec (gpm2 - gpm1) 0) as [Hc|_]; [lia|].
  eexists. reflexivity.
Qed.

(** Whatever the flow, the two modes [calculate] uses give a number, the
    out-of-range message or, in valve mode only, the next-size message. *)
Lemma interpolate_real_column (gpm_input : R) (fixture_type : string) :
  fixture_type = "Tank"%string \/ fixture_type = "Valve"%string ->
  fixture_column fixture_type (interpolate_fixture_units_real gpm_input fixture_type).
Proof.
  intros Hmode. unfold interpolate_fixture_units_real.
  change fixture_data with ((1, 0, None)%Z :: tl fixture_data) at 1.
  unfold interpolate_on_real.
  destruct (Rlt_dec gpm_input _) as [_|Hlo]; [right; left; reflexivity|].
  destruct (Rlt_dec _ gpm_input) as [_|Hhi]; [right; left; reflexivity|].
  destruct (scan_real_found gpm_input fixture_type (tl fixture_data) (1, 0, None)%Z)
    as (r1 & r2 & Hscan & Hlt).
  - exact fixture_data_flows.
  - cbn in Hlo. cbn. lra.
  - rewrite last_cons_default in Hhi. lra.
  - discriminate.
  - change ((1, 0, None)%Z :: tl fixture_data) with fixture_data in *.
    rewrite Hscan. destruct r1 as [[g1 t1] v1], r2 as [[g2 t2] v2].
    cbn in Hlt. unfold on_bracket_real.
    destruct Hmode as [-> | ->]; cbn [lower].
    + change (String.eqb (lower "Tank") "tank") with true. cbv iota.
      left. apply floor_interp_real_units. exact Hlt.
    + change (String.eqb (lower "Valve") "tank") with false.
      change (String.eqb (lower "Valve") "valve") with true. cbv iota.
      destruct v1 as [a|]; [|right; right; split; reflexivity].
      destruct v2 as [b|]; [|left; eexists; reflexivity].
      left. apply floor_interp_real_units. exact Hlt.
Qed.

Lemma of_result_column (fixture_type : string) (r : result) :
  fixture_column fixture_type r -> of_result r = Ret r.
Proof.
  intros [[n ->]|[->|[_ ->]]]; reflexivity.
Qed.

End ComputedFlow.

Section CalculateLoop.

Import FixtureUnits FluidDynamics PipeFlowCalcs.
Local Open Scope R_scope.

Variable hybr : (R -> py R) -> R -> R * Z.

(** One block of the loop body: it raises ZeroDivisionError when the
    capped velocity is 0 and otherwise yields the numbers of a row. *)
Lemma water_calculations_outcome (friction_rate max_velocity : R)
    (fixture_type : string) (pipe_inner_diam : R) :
  0 < pipe_inner_diam ->
  fixture_type = "Tank"%string \/ fixture_type = "Valve"%string ->
  let v := clamped_velocity hybr friction_rate max_velocity pipe_inner_diam in
  let re := v * (pipe_inner_diam / 12.0) / WATER_KIN_VISC in
  (v = 0
   /\ water_calculations hybr friction_rate max_velocity fixture_type pipe_inner_diam
      = Raise ZeroDivisionError)
  \/ (v <> 0
      /\ exists ff dp fu,
        friction_factor_solver hybr PyFloat re COPPER_EPSILON pipe_inner_diam 0.02
        = Ret ff
        /\ darcy_weisbach_pressure_drop (friction_kind re) ff v pipe_inner_diam = Ret dp
        /\ fixture_column fixture_type fu
        /\ water_calculations hybr friction_rate max_velocity fixture_type pipe_inner_diam
           = Ret {| flow_velocity := v;
                    flow_re := re;
                    flow_fric_factor := ff;
                    flow_pressure_drop := dp;
                    flow_gpm := v * pipe_inner_diam ^ 2 / 0.4084;
                    flow_fixture_units := fu |}).
Proof.
  intros Hd Hmode v re.
  unfold water_calculations, solve_velocity_given_pressure_drop.
  rewrite fsolve_no_raise by (intros e; apply friction_rate_residual_no_raise).
  cbn [bind]. fold (clamped_velocity hybr friction_rate max_velocity pipe_inner_diam).
  fold v. unfold reynolds_num.
  rewrite truediv_nonzero by (unfold WATER_KIN_VISC; lra). cbn [bind]. fold re.
  destruct (Req_EM_T v 0) as [Hv|Hv].
  - left. split; [exact Hv|].
    assert (Hre : re = 0) by (unfold re; rewrite Hv; unfold Rdiv; ring).
    rewrite Hre. unfold friction_factor_solver.
    destruct (Rlt_dec 0 2000) as [_|Hc]; [|lra].
    unfold truediv. destruct (Req_EM_T 0 0) as [_|Hc]; [reflexivity|contradiction].
  - right. split; [exact Hv|].
    assert (Hre : re <> 0).
    { unfold re, WATER_KIN_VISC. unfold Rdiv at 1.
      apply Rmult_integral_contrapositive_currified.
      - apply Rmult_integral_contrapositive_currified; lra.
      - apply Rinv_neq_0_compat. lra. }
    assert (Hff : exists ff,
               friction_factor_solver hybr PyFloat re COPPER_EPSILON pipe_inner_diam 0.02
               = Ret ff).
    { unfold friction_factor_solver. destruct (Rlt_dec re 2000).
      - rewrite truediv_nonzero by exact Hre. eexists. reflexivity.
      - rewrite fsolve_no_raise by (intros e; apply colebrook_white_no_raise; lra).
        eexists. reflexivity. }
    destruct Hff as [ff Hff]. rewrite Hff. cbn [bind].
    assert (Hdp : darcy_weisbach_pressure_drop (friction_kind re) ff v pipe_inner_diam
                  = Ret (ff * 100.0 * v ^ 2 / (pipe_inner_diam / 12.0 * 2.0 * GRAVITY))).
    { unfold darcy_weisbach_pressure_drop.
      apply truediv_nonzero. unfold GRAVITY. lra. }
    rewrite Hdp. cbn [bind].
    pose proof (interpolate_real_column (v * pipe_inner_diam ^ 2 / 0.4084)
                  fixture_type Hmode) as Hcol.
    rewrite (of_result_column fixture_type _ Hcol). cbn [bind].
    exists ff, (ff * 100.0 * v ^ 2 / (pipe_inner_diam / 12.0 * 2.0 * GRAVITY)),
      (interpolate_fixture_units_real (v * pipe_inner_diam ^ 2 / 0.4084) fixture_type).
    split; [reflexivity|]. split; [exact Hdp|].
    split; [exact Hcol|reflexivity].
Qed.

Lemma clear_tables_eq (st : display) : clear_tables st = (with_tables st [] [], Ret tt).
Proof. reflexivity. Qed.

Lemma insert_rows_eq (a b : table_row) (st : display) :
  insert_rows a b st
  = (with_tables st (table_cw st ++ [a]) (table_hw st ++ [b]), Ret tt).
Proof. reflexivity. Qed.

Lemma gui_bind_lift_ret {A B : Type} (a : A) (k : A -> gui B) (st : display) :
  gui_bind (lift (Ret a)) k st = k a st.
Proof. reflexivity. Qed.

Lemma gui_bind_lift_raise {A B : Type} (e : exn) (k : A -> gui B) (st : display) :
  gui_bind (lift (Raise e)) k st = (st, Raise e).
Proof. reflexivity. Qed.

Lemma for_each_cons (pipe_size d : R) (rest : list (R * R)) (body : R -> R -> gui unit)
    (st : display) :
  for_each ((pipe_size, d) :: rest) body st
  = match body pipe_size d st with
    | (st', Ret _) => for_each rest body st'
    | (st', NonFinite) => (st', NonFinite)
    | (st', Raise e) => (st', Raise e)
    end.
Proof. reflexivity. Qed.

Lemma with_tables_same (st : display) : with_tables st (table_cw st) (table_hw st) = st.
Proof. destruct st; reflexivity. Qed.

Variables (cw_rate cw_max hw_rate hw_max : R) (cw_type hw_type : string).
Hypothesis cw_type_mode : cw_type = "Tank"%string \/ cw_type = "Valve"%string.
Hypothesis hw_type_mode : hw_type = "Tank"%string \/ hw_type = "Valve"%string.

(** The loop over the pipe sizes either appends one computed row per size
    to each table, when no capped velocity is 0, or leaves with
    ZeroDivisionError at the first size where one is 0; the labels are not
    touched. *)
Lemma loop_outcome (sizes : list (R * R)) :
  Forall (fun p => 0 < snd p) sizes ->
  forall st,
    (Forall (fun p => clamped_velocity hybr cw_rate cw_max (snd p) <> 0
                      /\ clamped_velocity hybr hw_rate hw_max (snd p) <> 0) sizes
     /\ exists cw_rows hw_rows,
         for_each sizes (fun pipe_size pipe_inner_diam =>
           cw <~ lift (water_calculations hybr cw_rate cw_max cw_type pipe_inner_diam) ;;
           hw <~ lift (water_calculations hybr hw_rate hw_max hw_type pipe_inner_diam) ;;
           insert_rows (values_row pipe_size cw_type cw)
                       (values_row pipe_size hw_type hw)) st
         = (with_tables st (table_cw st ++ cw_rows) (table_hw st ++ hw_rows), Ret tt)
         /\ Forall2 (computed_row cw_max cw_type) sizes cw_rows
         /\ Forall2 (computed_row hw_max hw_type) sizes hw_rows)
    \/ (Exists (fun p => clamped_velocity hybr cw_rate cw_max (snd p) = 0
                         \/ clamped_velocity hybr hw_rate hw_max (snd p) = 0) sizes
        /\ exists cw_rows hw_rows,
            for_each sizes (fun pipe_size pipe_inner_diam =>
              cw <~ lift (water_calculations hybr cw_rate cw_max cw_type pipe_inner_diam) ;;
              hw <~ lift (water_calculations hybr hw_rate hw_max hw_type pipe_inner_diam) ;;
              insert_rows (values_row pipe_size cw_type cw)
                          (values_row pipe_size hw_type hw)) st
            = (with_tables st cw_rows hw_rows, Raise ZeroDivisionError)).
Proof.
  induction sizes as [|[pipe_size d] rest IH]; intros Hpos st.
  - left. split; [constructor|]. exists [], []. rewrite !app_nil_r.
    split; [rewrite with_tables_same; reflexivity|]. split; constructor.
  - inversion Hpos as [|? ? Hd Hrest]; subst. cbn [snd] in Hd.
    rewrite for_each_cons. cbv beta.
    destruct (water_calculations_outcome cw_rate cw_max cw_type d Hd cw_type_mode)
      as [[Hz Hr]|[Hnz (ff & dp & fu & _ & _ & Hcol & Hr)]]; rewrite Hr.
    + right. split; [left; left; exact Hz|].
      exists (table_cw st), (table_hw st).
      rewrite gui_bind_lift_raise, with_tables_same. reflexivity.
    + rewrite gui_bind_lift_ret.
      destruct (water_calculations_outcome hw_rate hw_max hw_type d Hd hw_type_mode)
        as [[Hz' Hr']|[Hnz' (ff' & dp' & fu' & _ & _ & Hcol' & Hr')]]; rewrite Hr'.
      * right. split; [left; right; exact Hz'|].
        exists (table_cw st), (table_hw st).
        rewrite gui_bind_lift_raise, with_tables_same. reflexivity.
      * rewrite gui_bind_lift_ret, insert_rows_eq. cbv iota beta.
        match goal with
        | |- context [with_tables st (table_cw st ++ [?a]) (table_hw st ++ [?b])] =>
            set (row_cw := a); set (row_hw := b)
        end.
        set (st1 := with_tables st (table_cw st ++ [row_cw]) (table_hw st ++ [row_hw])).
        destruct (IH Hrest st1) as [(Hall & cws & hws & Hrun & Hcw & Hhw)
                                   |(Hex & cws & hws & Hrun)].
        -- left. split.
           ++ constructor; [split; assumption|exact Hall].
           ++ exists (row_cw :: cws), (row_hw :: hws).
              split; [|split].
              ** rewrite Hrun. unfold st1, with_tables. cbn.
                 rewrite <- !app_assoc. reflexivity.
              ** constructor; [|exact Hcw].
                 exists (clamped_velocity hybr cw_rate cw_max d), fu, dp, ff.
                 split; [reflexivity|]. split; [apply Rmin_r|]. split; assumption.
              ** constructor; [|exact Hhw].
                 exists (clamped_velocity hybr hw_rate hw_max d), fu', dp', ff'.
                 split; [reflexivity|]. split; [apply Rmin_r|]. split; assumption.
        -- right. split; [right; exact Hex|].
           exists cws, hws. rewrite Hrun. reflexivity.
Qed.

End CalculateLoop.

Section CalculateResults.

Import FixtureUnits FluidDynamics PipeFlowCalcs.
Local Open Scope R_scope.

Variable hybr : (R -> py R) -> R -> R * Z.
Variable float : string -> option R.

Lemma is_zero_true (x : R) : is_zero x = true <-> x = 0.
Proof.
  unfold is_zero. destruct (Req_EM_T x 0); split; intros; congruence.
Qed.

Lemma copper_pipe_sizes_positive : Forall (fun p : R * R => 0 < snd p) copper_pipe_sizes.
Proof. unfold copper_pipe_sizes. repeat constructor; cbn; lra. Qed.

Lemma show_dashes_eq (st : display) :
  show_dashes st = (with_tables st dash_rows dash_rows, Ret tt).
Proof. reflexivity. Qed.

(** With an input equal to 0 the [try] is left at the guard. *)
Lemma try_block_missing (e : entries) (st : display) :
  ~ inputs_present float e ->
  try_block hybr float e st = (st, Raise ZeroDivisionError).
Proof.
  intros Hmiss. unfold try_block.
  destruct (is_zero (get_float float (cw_pressure_entry e))
            || is_zero (get_float float (hw_pressure_entry e))
            || is_zero (get_float float (length_entry e))
            || is_zero (get_float float (cw_velocity_entry e))
            || is_zero (get_float float (hw_velocity_entry e))) eqn:G; [reflexivity|].
  exfalso. apply Hmiss.
  repeat (apply orb_false_iff in G; destruct G as [G ?]).
  unfold inputs_present.
  repeat split; intros Hc; apply is_zero_true in Hc; congruence.
Qed.

(** With five non-zero inputs the labels are set, the tables emptied and
    the loop run. *)
Lemma try_block_present (e : entries) (st : display) :
  inputs_present float e ->
  try_block hybr float e st
  = for_each copper_pipe_sizes (fun pipe_size pipe_inner_diam =>
      cw <~ lift (water_calculations hybr
                    (friction_rate_of (get_float float (cw_pressure_entry e))
                                      (get_float float (length_entry e)))
                    (get_float float (cw_velocity_entry e))
                    (cw_fixture_type_of (fixture_type_combobox e)) pipe_inner_diam) ;;
      hw <~ lift (water_calculations hybr
                    (friction_rate_of (get_float float (hw_pressure_entry e))
                                      (get_float float (length_entry e)))
                    (get_float float (hw_velocity_entry e))
                    "Tank"%string pipe_inner_diam) ;;
      insert_rows (values_row pipe_size (cw_fixture_type_of (fixture_type_combobox e)) cw)
                  (values_row pipe_size "Tank"%string hw))
      (with_tables
         (fst (set_labels
                 (friction_rate_of (get_float float (cw_pressure_entry e))
                                   (get_float float (length_entry e)))
                 (friction_rate_of (get_float float (hw_pressure_entry e))
                                   (get_float float (length_entry e))) st))
         [] []).
Proof.
  intros (H1 & H2 & H3 & H4 & H5). unfold try_block.
  assert (Hz : forall x, x <> 0 -> is_zero x = false).
  { intros x Hx. destruct (is_zero x) eqn:E; [|reflexivity].
    apply is_zero_true in E. contradiction. }
  rewrite !Hz by assumption. cbn [orb].
  rewrite !truediv_nonzero by exact H3. cbn [bind].
  reflexivity.
Qed.

Lemma labels_after_set (cw_rate hw_rate : R) (st : display) (cw_rows hw_rows : list table_row) :
  labels_show (with_tables (fst (set_labels cw_rate hw_rate st)) cw_rows hw_rows)
              cw_rate hw_rate.
Proof. repeat split. Qed.

Lemma cw_fixture_type_mode (fixture_type : string) :
  cw_fixture_type_of fixture_type = "Tank"%string
  \/ cw_fixture_type_of fixture_type = "Valve"%string.
Proof.
  unfold cw_fixture_type_of. destruct (String.eqb fixture_type "Flush Valve Tanks"); auto.
Qed.

(** X9.  When one of the five entry fields does not parse as a number,
    or parses to 0, [calculate] returns normally, leaves the four labels
    as they were and fills both tables with one row of dashes per pipe
    size; the solver is not called. *)
Theorem calculate_missing_input (e : entries) (st : display) :
  (exists s,
      In s [cw_pressure_entry e; hw_pressure_entry e; length_entry e;
            cw_velocity_entry e; hw_velocity_entry e]
      /\ (float s = None \/ float s = Some 0)) ->
  calculate hybr float e st = (with_tables st dash_rows dash_rows, Ret tt).
Proof.
  intros (s & Hin & Hs).
  assert (Hz : get_float float s = 0).
  { unfold get_float. destruct Hs as [-> | ->]; lra. }
  assert (Hmiss : ~ inputs_present float e).
  { intros (H1 & H2 & H3 & H4 & H5).
    cbn in Hin. destruct Hin as [<-|[<-|[<-|[<-|[<-|[]]]]]]; contradiction. }
  unfold calculate. rewrite (try_block_missing e st Hmiss).
  apply show_dashes_eq.
Qed.

End CalculateResults.

Section CalculateOutcome.

Import FixtureUnits FluidDynamics PipeFlowCalcs.
Local Open Scope R_scope.

Lemma calculate_missing_input_witness :
  let float := fun s : string => if String.eqb s "40" then Some 40 else None in
  let e := {| cw_pressure_entry := "40"; hw_pressure_entry := "40";
              length_entry := ""; cw_velocity_entry := "40";
              hw_velocity_entry := "40";
              fixture_type_combobox := "Flush Valve Tanks" |} in
  let st := {| cw_friction_rate_label := None; cw_friction_rate_psi_label := None;
               hw_friction_rate_label := None; hw_friction_rate_psi_label := None;
               table_cw := []; table_hw := [] |} in
  calculate no_budget_hybr float e st = (with_tables st dash_rows dash_rows, Ret tt).
Proof.
  intros float e st.
  apply (calculate_missing_input no_budget_hybr float e st).
  exists ""%string. split.
  - right. right. left. reflexivity.
  - left. reflexivity.
Defined.

Lemma inputs_present_dec (float : string -> option R) (e : entries) :
  inputs_present float e \/ ~ inputs_present float e.
Proof.
  unfold inputs_present.
  destruct (Req_EM_T (get_float float (cw_pressure_entry e)) 0);
    [right; intros (H & _); contradiction|].
  destruct (Req_EM_T (get_float float (hw_pressure_entry e)) 0);
    [right; intros (_ & H & _); contradiction|].
  destruct (Req_EM_T (get_float float (length_entry e)) 0);
    [right; intros (_ & _ & H & _); contradiction|].
  destruct (Req_EM_T (get_float float (cw_velocity_entry e)) 0);
    [right; intros (_ & _ & _ & H & _); contradiction|].
  destruct (Req_EM_T (get_float float (hw_velocity_entry e)) 0);
    [right; intros (_ & _ & _ & _ & H); contradiction|].
  left. repeat split; assumption.
Qed.

(** With five non-zero inputs: the labels show the new rates; the tables
    hold computed rows when no capped velocity is 0 and dashes when one
    is. *)
Lemma calculate_present (hybr : (R -> py R) -> R -> R * Z) (float : string -> option R)
    (e : entries) (st : display) :
  inputs_present float e ->
  let cw_rate := friction_rate_of (get_float float (cw_pressure_entry e))
                                  (get_float float (length_entry e)) in
  let hw_rate := friction_rate_of (get_float float (hw_pressure_entry e))
                                  (get_float float (length_entry e)) in
  let cw_max := get_float float (cw_velocity_entry e) in
  let hw_max := get_float float (hw_velocity_entry e) in
  exists st',
    calculate hybr float e st = (st', Ret tt)
    /\ labels_show st' cw_rate hw_rate
    /\ ((Exists (fun p => clamped_velocity hybr cw_rate cw_max (snd p) = 0
                          \/ clamped_velocity hybr hw_rate hw_max (snd p) = 0)
                copper_pipe_sizes
         /\ table_cw st' = dash_rows /\ table_hw st' = dash_rows)
        \/ (Forall (fun p => clamped_velocity hybr cw_rate cw_max (snd p) <> 0
                             /\ clamped_velocity hybr hw_rate hw_max (snd p) <> 0)
                   copper_pipe_sizes
            /\ Forall2 (computed_row cw_max (cw_fixture_type_of (fixture_type_combobox e)))
                       copper_pipe_sizes (table_cw st')
            /\ Forall2 (computed_row hw_max "Tank"%string)
                       copper_pipe_sizes (table_hw st'))).
Proof.
  intros Hpres cw_rate hw_rate cw_max hw_max.
  unfold calculate. rewrite (try_block_present hybr float e st Hpres).
  fold cw_rate hw_rate cw_max hw_max.
  set (st0 := with_tables (fst (set_labels cw_rate hw_rate st)) [] []).
  destruct (loop_outcome hybr cw_rate cw_max hw_rate hw_max
              (cw_fixture_type_of (fixture_type_combobox e)) "Tank"%string
              (cw_fixture_type_mode _) (or_introl eq_refl)
              copper_pipe_sizes copper_pipe_sizes_positive st0)
    as [(Hall & cws & hws & Hrun & Hcw & Hhw)|(Hex & cws & hws & Hrun)];
    rewrite Hrun.
  - eexists. split; [reflexivity|]. split; [apply labels_after_set|].
    right. split; [exact Hall|]. split; [exact Hcw|exact Hhw].
  - rewrite show_dashes_eq.
    eexists. split; [reflexivity|]. split; [apply labels_after_set|].
    left. split; [exact Hex|]. split; reflexivity.
Qed.




End CalculateOutcome.

Section PressureBudget.

Import FixtureUnits FluidDynamics PipeFlowCalcs.
Local Open Scope R_scope.

Variable hybr : (R -> py R) -> R -> R * Z.
Hypothesis hybr_exact : exact_on_convergence hybr.

(** The head loss [calculate] reports at a non-zero velocity, by regime. *)
Lemma block_head_loss (v pipe_inner_diam ff dp : R) :
  0 < pipe_inner_diam -> v <> 0 ->
  let re := v * (pipe_inner_diam / 12.0) / WATER_KIN_VISC in
  friction_factor_solver hybr PyFloat re COPPER_EPSILON pipe_inner_diam 0.02 = Ret ff ->
  darcy_weisbach_pressure_drop (friction_kind re) ff v pipe_inner_diam = Ret dp ->
  (~ re < 2000 ->
   snd (hybr (colebrook_white COPPER_EPSILON (pipe_inner_diam / 12.0) re) 0.02) = 1%Z) ->
  (re < 2000 /\ dp = 64 * head_loss_scale pipe_inner_diam WATER_KIN_VISC * re)
  \/ (2000 <= re
      /\ exists s,
          colebrook_root (COPPER_EPSILON / (3.7 * (pipe_inner_diam / 12.0))) re s
          /\ dp = head_loss_scale pipe_inner_diam WATER_KIN_VISC * ((re * s) * (re * s))).
Proof.
  intros Hd Hv re Hff Hdp Hinner.
  assert (Hnu : 0 < WATER_KIN_VISC) by (unfold WATER_KIN_VISC; lra).
  unfold darcy_weisbach_pressure_drop in Hdp.
  rewrite truediv_nonzero in Hdp by (unfold GRAVITY; lra).
  injection Hdp as Hdp.
  destruct (Rlt_dec re 2000) as [Hlam|Hturb].
  - left. split; [exact Hlam|].
    assert (Hre : re <> 0).
    { unfold re. unfold Rdiv at 1. apply Rmult_integral_contrapositive_currified.
      - apply Rmult_integral_contrapositive_currified; lra.
      - apply Rinv_neq_0_compat. lra. }
    unfold friction_factor_solver in Hff.
    destruct (Rlt_dec re 2000) as [_|Hc]; [|contradiction].
    rewrite truediv_nonzero in Hff by exact Hre. injection Hff as Hff.
    rewrite <- Hdp, <- Hff. unfold head_loss_scale, re, GRAVITY. field. lra.
  - right. split; [lra|].
    destruct (converged_friction_root hybr hybr_exact PyFloat re COPPER_EPSILON
                pipe_inner_diam 0.02 ff ltac:(lra) ltac:(lra) (Hinner Hturb) Hff)
      as [Hroot Hsq].
    exists (sqrt ff). split; [exact Hroot|].
    rewrite <- Hdp. rewrite Hsq at 1.
    unfold head_loss_scale, re, GRAVITY. field. lra.
Qed.

End PressureBudget.

Section PressureBudgetResult.

Import FixtureUnits FluidDynamics PipeFlowCalcs.
Local Open Scope R_scope.



End PressureBudgetResult.
